(** * Flask-Security: the email-confirmation flow and its views

    A shallow embedding of [flask_security/utils.py],
    [flask_security/confirmable.py] and [flask_security/views.py].

    Python objects live in a heap addressed by references, so that the
    user mutated by [confirm_by_token] is the very object the datastore
    handed out.  Every function of the source is a computation in a
    state-and-exception monad over the [World]; the only loop of the
    code, the collision probe of [generate_confirmation_token], is
    bounded by a fuel argument. *)

From Stdlib Require Import ZArith Ascii String.
From stdpp Require Import base option list gmap strings.

Local Open Scope string_scope.
Local Open Scope Z_scope.

(** ** Python values and truth *)

Inductive PyVal :=
| PNone
| PBool (b : bool)
| PStr (s : string).

(** [bool(x)] of Python: the protocol behind [if x], [not x] and [x or y]. *)
Class Truthy (A : Type) := truthy : A -> bool.

#[export] Instance truthy_bool : Truthy bool := fun b => b.

#[export] Instance truthy_string : Truthy string :=
  fun s => match s with EmptyString => false | String _ _ => true end.

#[export] Instance truthy_pyval : Truthy PyVal :=
  fun v => match v with
           | PNone => false
           | PBool b => b
           | PStr s => truthy s
           end.

(** A token taken from the query string: [None] or a [str]. *)
#[export] Instance truthy_token : Truthy (option string) :=
  fun t => match t with None => false | Some s => truthy s end.

(** A nullable [datetime]: every [datetime] instance is true. *)
#[export] Instance truthy_timestamp : Truthy (option Z) :=
  fun t => match t with None => false | Some _ => true end.

(** [a or b], both operands already evaluated. *)
Definition py_or {A} `{Truthy A} (a b : A) : A := if truthy a then a else b.

(** ** Strings *)

Definition upper_ascii (c : ascii) : ascii :=
  let n := nat_of_ascii c in
  if (97 <=? n)%nat && (n <=? 122)%nat then ascii_of_nat (n - 32) else c.

Definition lower_ascii (c : ascii) : ascii :=
  let n := nat_of_ascii c in
  if (65 <=? n)%nat && (n <=? 90)%nat then ascii_of_nat (n + 32) else c.

Fixpoint str_map (f : ascii -> ascii) (s : string) : string :=
  match s with
  | EmptyString => EmptyString
  | String c r => String (f c) (str_map f r)
  end.

Definition upper : string -> string := str_map upper_ascii.
Definition lower : string -> string := str_map lower_ascii.

(** [s[:-1]] *)
Definition drop_last (s : string) : string :=
  substring 0 (String.length s - 1) s.

(** ** base64.urlsafe_b64encode *)

Definition b64_alphabet : string :=
  "ABCDEFGHIJKLMNOPQRSTUVWXYZabcdefghijklmnopqrstuvwxyz0123456789-_".

Definition b64_char (n : N) : ascii :=
  match String.get (N.to_nat n) b64_alphabet with
  | Some c => c
  | None => "="%char
  end.

Definition sextet (n : N) (k : N) : ascii :=
  b64_char (N.land (N.shiftr n (6 * k)) 63).

Fixpoint urlsafe_b64encode (bs : list Byte.byte) : string :=
  match bs with
  | [] => EmptyString
  | [a] =>
      let n := N.shiftl (Byte.to_N a) 16 in
      String (sextet n 3) (String (sextet n 2) "==")
  | [a; b] =>
      let n := N.lor (N.shiftl (Byte.to_N a) 16) (N.shiftl (Byte.to_N b) 8) in
      String (sextet n 3) (String (sextet n 2) (String (sextet n 1) "="))
  | a :: b :: c :: rest =>
      let n := N.lor (N.lor (N.shiftl (Byte.to_N a) 16)
                            (N.shiftl (Byte.to_N b) 8)) (Byte.to_N c) in
      String (sextet n 3) (String (sextet n 2) (String (sextet n 1)
        (String (sextet n 0) (urlsafe_b64encode rest))))
  end.

(** ** Data model *)

(** A reference to a Python object: an index into the heap. *)
Definition ref := nat.

(** A [datetime] is counted in microseconds from [datetime.min], a
    [timedelta] in microseconds; [datetime_max] is [datetime.max], the
    last microsecond of the year 9999. *)
Definition datetime_max : Z := 315537897599999999.

Definition is_datetime (t : Z) : bool := (0 <=? t) && (t <=? datetime_max).

(** The fields of a user record; the timestamps are [datetime]s. *)
Record User := mkUser {
  email : string;
  password : string;
  active : bool;
  confirmed_at : option Z;
  confirmation_token : option string;
  confirmation_sent_at : option Z
}.

Definition with_confirmed_at (v : option Z) (u : User) : User :=
  mkUser (email u) (password u) (active u) v
         (confirmation_token u) (confirmation_sent_at u).

Definition with_confirmation_token (v : option string) (u : User) : User :=
  mkUser (email u) (password u) (active u) (confirmed_at u)
         v (confirmation_sent_at u).

Definition with_confirmation_sent_at (v : option Z) (u : User) : User :=
  mkUser (email u) (password u) (active u) (confirmed_at u)
         (confirmation_token u) v.

(** What a reference points to.  A model object carries its in-memory
    fields and the row the datastore last persisted for it ([None] until
    the first save); a mapping is the [dict] of keyword arguments a
    datastore prepares before it builds the model object. *)
Inductive Cell :=
| ModelObj (live : User) (stored : option User)
| KwargsDict (fields : User).

(** The exceptions of [flask_security.exceptions] and the built-in ones
    the code can meet.  The last three derive from [BaseException]
    only; every other one derives from [Exception]. *)
Inductive exn :=
| UserNotFoundError
| ConfirmationError (message : string)
| TokenExpiredError (message : string) (user : ref)
| BadCredentialsError (message : string)
| ResetPasswordError (message : string)
| TypeError
| AttributeError
| OverflowError
| KeyError (key : string)
| OtherException (name : string)
| SystemExit
| KeyboardInterrupt
| GeneratorExit.

(** [isinstance(e, Exception)] *)
Definition is_Exception (e : exn) : bool :=
  match e with
  | SystemExit | KeyboardInterrupt | GeneratorExit => false
  | _ => true
  end.

(** [str(e)] *)
Definition str_exn (e : exn) : string :=
  match e with
  | UserNotFoundError => ""
  | ConfirmationError m | TokenExpiredError m _
  | BadCredentialsError m | ResetPasswordError m => m
  | TypeError => "TypeError"
  | AttributeError => "AttributeError"
  | OverflowError => "date value out of range"
  | KeyError k => k
  | OtherException n => n
  | SystemExit => "SystemExit"
  | KeyboardInterrupt => "KeyboardInterrupt"
  | GeneratorExit => "GeneratorExit"
  end.

Inductive CtxVal :=
| CUser (user : ref)
| CStr (s : string).

Definition Context := list (string * CtxVal).

(** [flask.ext.mail.Message] *)
Record Message := mkMessage {
  subject : string;
  sender : string;
  recipients : list string;
  body : string;
  html : string
}.

(** The notifications of [flask_security.signals] and of the principal
    extension, in the order they were sent. *)
Inductive Signal :=
| user_registered (user : ref)
| confirm_instructions_sent (user : ref)
| user_confirmed (user : ref)
| identity_changed (identity : option ref).

Inductive LogLine :=
| LogLoggedIn (user : ref)
| LogLoggedOut
| LogRegistered (user : ref)
| LogConfirmed (user : ref)
| LogUnsuccessful (msg : string).

Inductive Response :=
| redirect (location : PyVal).

(** Everything a request can read and change. *)
Record World := mkWorld {
  heap : list Cell;
  ticks : nat;                     (* calls of datetime.utcnow() so far *)
  drawn : nat;                     (* bytes read from os.urandom so far *)
  outbox : list Message;           (* current_app.mail *)
  signals : list Signal;
  flashes : list (string * string);
  logged : list LogLine;
  session : gmap string string;
  current_user : option (ref * bool)   (* flask-login: user, remember *)
}.

Definition set_heap (h : list Cell) (w : World) : World :=
  mkWorld h (ticks w) (drawn w) (outbox w) (signals w) (flashes w)
          (logged w) (session w) (current_user w).
Definition set_ticks (n : nat) (w : World) : World :=
  mkWorld (heap w) n (drawn w) (outbox w) (signals w) (flashes w)
          (logged w) (session w) (current_user w).
Definition set_drawn (n : nat) (w : World) : World :=
  mkWorld (heap w) (ticks w) n (outbox w) (signals w) (flashes w)
          (logged w) (session w) (current_user w).
Definition set_outbox (o : list Message) (w : World) : World :=
  mkWorld (heap w) (ticks w) (drawn w) o (signals w) (flashes w)
          (logged w) (session w) (current_user w).
Definition set_signals (s : list Signal) (w : World) : World :=
  mkWorld (heap w) (ticks w) (drawn w) (outbox w) s (flashes w)
          (logged w) (session w) (current_user w).
Definition set_flashes (f : list (string * string)) (w : World) : World :=
  mkWorld (heap w) (ticks w) (drawn w) (outbox w) (signals w) f
          (logged w) (session w) (current_user w).
Definition set_logged (l : list LogLine) (w : World) : World :=
  mkWorld (heap w) (ticks w) (drawn w) (outbox w) (signals w) (flashes w)
          l (session w) (current_user w).
Definition set_session (s : gmap string string) (w : World) : World :=
  mkWorld (heap w) (ticks w) (drawn w) (outbox w) (signals w) (flashes w)
          (logged w) s (current_user w).
Definition set_current_user (c : option (ref * bool)) (w : World) : World :=
  mkWorld (heap w) (ticks w) (drawn w) (outbox w) (signals w) (flashes w)
          (logged w) (session w) c.

(** ** The monad of Python computations *)

(** A call returns, raises, or (in this model only) exhausts the fuel of
    a loop.  The world survives an exception: what was mutated before
    the [raise] stays mutated. *)
Inductive Outcome (A : Type) :=
| Val (a : A)
| Exc (e : exn)
| Fuel.
Arguments Val {A} a.
Arguments Exc {A} e.
Arguments Fuel {A}.

Definition M (A : Type) : Type := World -> Outcome A * World.

#[export] Instance M_ret : MRet M := fun A a w => (Val a, w).

#[export] Instance M_bind : MBind M := fun A B f m w =>
  match m w with
  | (Val a, w') => f a w'
  | (Exc e, w') => (Exc e, w')
  | (Fuel, w') => (Fuel, w')
  end.

Definition raise {A} (e : exn) : M A := fun w => (Exc e, w).
Definition out_of_fuel {A} : M A := fun w => (Fuel, w).
Definition gets {A} (f : World -> A) : M A := fun w => (Val (f w), w).
Definition modify (f : World -> World) : M unit := fun w => (Val tt, f w).

(** [try: m  except <classes>: h e].  The handler table answers [None]
    for an exception that no [except] clause matches. *)
Definition try_except {A} (m : M A) (h : exn -> option (M A)) : M A :=
  fun w =>
    match m w with
    | (Exc e, w') =>
        match h e with
        | Some k => k w'
        | None => (Exc e, w')
        end
    | r => r
    end.

(** ** Attribute and item access *)

Definition getattr {A} (user : ref) (field : User -> A) : M A :=
  fun w =>
    match heap w !! user with
    | Some (ModelObj live _) => (Val (field live), w)
    | Some (KwargsDict _) => (Exc AttributeError, w)
    | None => (Exc (OtherException "ReferenceError"), w)
    end.

(** [user.field = v] *)
Definition setattr (user : ref) (upd : User -> User) : M unit :=
  fun w =>
    match heap w !! user with
    | Some (ModelObj live stored) =>
        (Val tt, set_heap (<[user := ModelObj (upd live) stored]> (heap w)) w)
    | Some (KwargsDict _) => (Exc AttributeError, w)
    | None => (Exc (OtherException "ReferenceError"), w)
    end.

(** [user['field'] = v]: a model object does not support item
    assignment. *)
Definition setitem (user : ref) (upd : User -> User) : M unit :=
  fun w =>
    match heap w !! user with
    | Some (KwargsDict fields) =>
        (Val tt, set_heap (<[user := KwargsDict (upd fields)]> (heap w)) w)
    | Some (ModelObj _ _) => (Exc TypeError, w)
    | None => (Exc (OtherException "ReferenceError"), w)
    end.

(** ** The ambient application and request *)

(** What the login form of the request carries. *)
Record LoginForm := mkLoginForm {
  login_email : string;
  login_password : string;
  remember_data : bool               (* form.remember.data *)
}.

(** The registration form of the request: whether it validates, and the
    fields [form.to_dict()] hands to the datastore. *)
Record RegisterForm := mkRegisterForm {
  validate_on_submit : bool;
  to_dict : User
}.

(** [app.security]: the settings the three modules read, and the
    pluggable authentication provider, which answers with a user or
    raises. *)
Record Security := mkSecurity {
  confirm_email : bool;
  confirm_email_within : Z;
  confirm_email_within_text : string;
  login_without_confirmation : bool;
  email_sender : string;
  post_login_view : PyVal;
  post_register_view : PyVal;
  post_confirm_view : PyVal;
  post_logout_view : PyVal;
  register_url : PyVal;
  login_view : PyVal;                (* login_manager.login_view *)
  auth_provider : LoginForm -> list Cell -> exn + ref
}.

(** [current_app], with the collaborators the host supplies: routing
    ([url_for]), templating, the system clock and the entropy source. *)
Record App := mkApp {
  config : gmap string PyVal;
  testing : bool;
  security : Security;
  url_for : string -> option string;          (* None: BuildError *)
  url_for_confirm : option string -> string;  (* flask_security.confirm *)
  render_template : string -> Context -> string;
  clock : nat -> Z;                  (* n-th reading of datetime.utcnow() *)
  entropy : nat -> Byte.byte;        (* n-th byte of os.urandom *)
  (* flask-login keeps its state in the session of the request: what
     login_user(user, remember) and logout_user() make of it *)
  login_session : ref -> bool -> gmap string string -> gmap string string;
  logout_session : gmap string string -> gmap string string
}.

Record Request := mkRequest {
  args : gmap string string;
  form : gmap string string;
  referrer : PyVal;
  url_root : string;
  LoginForm_of : LoginForm;
  RegisterForm_of : bool -> RegisterForm      (* csrf_enabled *)
}.

Definition py_get (m : gmap string string) (k : string) : PyVal :=
  match m !! k with
  | Some s => PStr s
  | None => PNone
  end.

Section FlaskSecurity.

Variable app : App.
Variable request : Request.

Local Abbreviation _security := (security app).

(** *** System calls *)

Definition utcnow : M Z :=
  fun w => (Val (clock app (ticks w)), set_ticks (S (ticks w)) w).

Definition urandom (n : nat) : M (list Byte.byte) :=
  fun w => (Val (map (fun i => entropy app (drawn w + i)%nat) (seq 0 n)),
            set_drawn (drawn w + n)%nat w).

Definition send_signal (s : Signal) : M unit :=
  modify (fun w => set_signals (signals w ++ [s]) w).

Definition logger_debug (l : LogLine) : M unit :=
  modify (fun w => set_logged (logged w ++ [l]) w).

Definition flash (message category : string) : M unit :=
  modify (fun w => set_flashes (flashes w ++ [(message, category)]) w).

(** [session.pop(key, None)] *)
Definition session_pop (key : string) : M PyVal :=
  fun w => (Val (py_get (session w) key),
            set_session (delete key (session w)) w).

(** *** The datastore contract *)

Definition row_has_token (token : string) (c : Cell) : Prop :=
  match c with
  | ModelObj _ (Some row) => confirmation_token row = Some token
  | _ => False
  end.

#[export] Instance row_has_token_dec token c : Decision (row_has_token token c) :=
  match c as c0 return Decision (row_has_token token c0) with
  | ModelObj _ (Some row) => decide (confirmation_token row = Some token)
  | ModelObj _ None => right (fun H => H)
  | KwargsDict _ => right (fun H => H)
  end.

(** [_datastore.find_user(confirmation_token=token)]: the first
    persisted row holding the token, handed out as its model object. *)
Definition find_user (token : string) : M ref :=
  fun w =>
    match list_find (row_has_token token) (heap w) with
    | Some (user, _) => (Val user, w)
    | None => (Exc UserNotFoundError, w)
    end.

(** [_datastore._save_model(user)] *)
Definition _save_model (user : ref) : M ref :=
  fun w =>
    match heap w !! user with
    | Some (ModelObj live _) =>
        (Val user, set_heap (<[user := ModelObj live (Some live)]> (heap w)) w)
    | Some (KwargsDict _) => (Exc AttributeError, w)
    | None => (Exc (OtherException "ReferenceError"), w)
    end.

(** [_datastore.create_user] applied to the unpacked [fields] *)
Definition create_user (fields : User) : M ref :=
  fun w => (Val (length (heap w)),
            set_heap (heap w ++ [ModelObj fields (Some fields)]) w).

(** *** flask-login *)

(** [login_user(user, remember)]: an inactive user is refused before
    anything is written; otherwise the extension writes its keys into
    the session and the user becomes the current user. *)
Definition login_user (user : ref) (remember : bool) : M bool :=
  is_active ← getattr user active;
  if is_active : bool
  then modify (fun w =>
                 set_session (login_session app user remember (session w)) w);;
       modify (set_current_user (Some (user, remember)));;
       mret true
  else mret false.


(** *** flask_security/utils.py *)

Definition generate_token : M string :=
  bs ← urandom 30;
  mret (urlsafe_b64encode bs).

Definition config_value (key : string) (default : PyVal) : PyVal :=
  match config app !! ("SECURITY_" ++ upper key) with
  | Some v => v
  | None => default
  end.

Definition do_flash (message category : string) : M unit :=
  if truthy (config_value "FLASH_MESSAGES" PNone)
  then flash message category
  else mret tt.

(** [url_for] raises on anything that is not a known endpoint; the bare
    [except] then hands the argument back. *)
Definition get_url (endpoint_or_url : PyVal) : PyVal :=
  match endpoint_or_url with
  | PStr s =>
      match url_for app s with
      | Some url => PStr url
      | None => endpoint_or_url
      end
  | _ => endpoint_or_url
  end.

Definition find_redirect (key : string) : M PyVal :=
  popped ← session_pop (lower key);
  result ← (if truthy (get_url popped) then mret (get_url popped)
            else match config app !! upper key with
                 | None => raise (KeyError (upper key))
                 | Some v => mret (py_or (get_url (py_or v PNone)) (PStr "/"))
                 end);
  _ ← session_pop (lower key);
  mret result.

Definition get_post_login_redirect : M PyVal :=
  let from_args := get_url (py_get (args request) "next") in
  if truthy from_args then mret from_args
  else
    let from_form := get_url (py_get (form request) "next") in
    if truthy from_form then mret from_form
    else find_redirect "SECURITY_POST_LOGIN_VIEW".

Definition send_mail (subject recipient template : string)
    (context : option Context) : M unit :=
  let context := match context with
                 | Some ((_ :: _) as c) => c
                 | _ => []
                 end in
  let base := "security/email" in
  let msg :=
    mkMessage subject (email_sender _security) [recipient]
      (render_template app (base ++ "/" ++ template ++ ".txt") context)
      (render_template app (base ++ "/" ++ template ++ ".html") context) in
  modify (fun w => set_outbox (outbox w ++ [msg]) w).

(** *** flask_security/confirmable.py *)

Definition find_user_by_confirmation_token (token : option string) : M ref :=
  match token with
  | Some t => if truthy t then find_user t
              else raise (ConfirmationError "Confirmation token required")
  | None => raise (ConfirmationError "Confirmation token required")
  end.

Definition send_confirmation_instructions (user : ref) : M bool :=
  token ← getattr user confirmation_token;
  let url := url_for_confirm app token in
  let confirmation_link := drop_last (url_root request) ++ url in
  recipient ← getattr user email;
  send_mail "Please confirm your email" recipient
    "confirmation_instructions"
    (Some [("user", CUser user);
           ("confirmation_link", CStr confirmation_link)]);;
  send_signal (confirm_instructions_sent user);;
  mret true.

(** The [while True] loop: draw a token until the datastore knows no
    user for it. *)
Fixpoint fresh_token (fuel : nat) : M string :=
  match fuel with
  | O => out_of_fuel
  | S fuel' =>
      token ← generate_token;
      found ← try_except
                (_ ← find_user_by_confirmation_token (Some token); mret true)
                (fun e => match e with
                          | UserNotFoundError => Some (mret false)
                          | _ => None
                          end);
      if found : bool then fresh_token fuel' else mret token
  end.

Definition generate_confirmation_token (fuel : nat) (user : ref) : M ref :=
  token ← fresh_token fuel;
  now ← utcnow;
  try_except
    (setitem user (with_confirmation_token (Some token));;
     setitem user (with_confirmation_sent_at (Some now)))
    (fun e => match e with
              | TypeError =>
                  Some (setattr user (with_confirmation_token (Some token));;
                        setattr user (with_confirmation_sent_at (Some now)))
              | _ => None
              end);;
  mret user.

Definition should_confirm_email {A} (fn : A -> M bool) : A -> M bool :=
  fun a => if confirm_email _security then fn a else mret false.

Definition requires_confirmation : ref -> M bool :=
  should_confirm_email (fun user =>
    at_ ← getattr user confirmed_at;
    mret (bool_decide (at_ = None))).

(** [d - delta] of a [datetime] and a [timedelta]: a result outside
    the [datetime] range is an [OverflowError]. *)
Definition datetime_sub (d delta : Z) : M Z :=
  if is_datetime (d - delta) then mret (d - delta) else raise OverflowError.

(** [sent_at < token_expires] between [datetime]s; [None] on the left
    is a [TypeError]. *)
Definition confirmation_token_is_expired : ref -> M bool :=
  should_confirm_email (fun user =>
    now ← utcnow;
    token_expires ← datetime_sub now (confirm_email_within _security);
    sent_at ← getattr user confirmation_sent_at;
    match sent_at with
    | Some t => mret (t <? token_expires)
    | None => raise TypeError
    end).

Definition confirm_by_token (token : option string) : M ref :=
  user ← try_except (find_user_by_confirmation_token token)
           (fun e => match e with
                     | UserNotFoundError =>
                         Some (raise (ConfirmationError
                                        "Invalid confirmation token"))
                     | _ => None
                     end);
  already ← getattr user confirmed_at;
  if truthy already
  then raise (ConfirmationError "Account has already been confirmed")
  else
    expired ← confirmation_token_is_expired user;
    if expired : bool
    then raise (TokenExpiredError "Confirmation token is expired" user)
    else
      now ← utcnow;
      setattr user (with_confirmed_at (Some now));;
      _save_model user;;
      send_signal (user_confirmed user);;
      mret user.

Definition reset_confirmation_token (fuel : nat) (user : ref) : M unit :=
  generated ← generate_confirmation_token fuel user;
  _save_model generated;;
  send_confirmation_instructions user;;
  mret tt.

(** *** flask_security/views.py *)

Definition _do_login (user : ref) (remember : bool) : M bool :=
  ok ← login_user user remember;
  if ok : bool
  then send_signal (identity_changed (Some user));;
       logger_debug (LogLoggedIn user);;
       mret true
  else mret false.

(** [_security.auth_provider.authenticate(form)] *)
Definition provider_authenticate (form : LoginForm) : M ref :=
  fun w =>
    match auth_provider _security form (heap w) with
    | inl e => (Exc e, w)
    | inr user => (Val user, w)
    end.

(** The body of the [try] block of [authenticate]. *)
Definition authentication_attempt (form : LoginForm) : M Response :=
  user ← provider_authenticate form;
  ok ← _do_login user (remember_data form);
  if ok : bool
  then location ← get_post_login_redirect;
       mret (redirect location)
  else raise (BadCredentialsError "Inactive user").

(** The message an [except] clause of [authenticate] binds to [msg]. *)
Definition failure_message (e : exn) : string :=
  match e with
  | BadCredentialsError _ => str_exn e
  | _ => "Unknown authentication error"
  end.

(** The second clause, [except Exception], catches the instances of
    [Exception]; any other exception passes through the view. *)
Definition authenticate : M Response :=
  let form := LoginForm_of request in
  attempt ← try_except
    (response ← authentication_attempt form; mret (inl response))
    (fun e => if is_Exception e
              then Some (mret (inr (failure_message e)))
              else None);
  match attempt with
  | inl response => mret response
  | inr msg =>
      do_flash msg "error";;
      logger_debug (LogUnsuccessful msg);;
      mret (redirect (py_or (referrer request) (login_view _security)))
  end.


Definition register : M Response :=
  let form := RegisterForm_of request (negb (testing app)) in
  if validate_on_submit form
  then
    user ← create_user (to_dict form);
    send_signal (user_registered user);;
    (if confirm_email _security
     then send_confirmation_instructions user;; mret tt
     else mret tt);;
    logger_debug (LogRegistered user);;
    (if negb (confirm_email _security) || login_without_confirmation _security
     then _do_login user true;; mret tt
     else mret tt);;
    mret (redirect (py_or (post_register_view _security)
                          (post_login_view _security)))
  else
    mret (redirect (py_or (referrer request) (register_url _security))).

Definition confirm (fuel : nat) : M Response :=
  attempt ← try_except
    (user ← confirm_by_token (args request !! "confirmation_token");
     mret (inl user))
    (fun e => match e with
              | ConfirmationError m =>
                  Some (do_flash m "error";;
                        mret (inr (redirect (PStr "/"))))
              | TokenExpiredError _ user =>
                  Some (reset_confirmation_token fuel user;;
                        recipient ← getattr user email;
                        do_flash
                          ("You did not confirm your email within "
                           ++ confirm_email_within_text _security
                           ++ ". A new confirmation code has been sent to "
                           ++ recipient) "error";;
                        mret (inr (redirect (PStr "/"))))
              | _ => None
              end);
  match attempt with
  | inr response => mret response
  | inl user =>
      logger_debug (LogConfirmed user);;
      do_flash "Your email has been confirmed. You may now log in." "success";;
      mret (redirect (py_or (post_confirm_view _security)
                            (post_login_view _security)))
  end.

End FlaskSecurity.

(** No row of the datastore holds [token]. *)
Definition token_unknown (token : string) (h : list Cell) : Prop :=
  Forall (fun c => ~ row_has_token token c) h.

(** The [k]-th token the generation loop draws when the entropy source
    stands at byte [pos]. *)
Definition candidate (app : App) (pos k : nat) : string :=
  urlsafe_b64encode
    (map (fun i => entropy app (pos + 30 * k + i)%nat) (seq 0 30)).

(** The fields of the user a reference points to, model object or
    mapping. *)
Definition cell_fields (c : Cell) : User :=
  match c with
  | ModelObj live _ => live
  | KwargsDict fields => fields
  end.

(** A field update applied to whatever the reference points to. *)
Definition cell_map (upd : User -> User) (c : Cell) : Cell :=
  match c with
  | ModelObj live stored => ModelObj (upd live) stored
  | KwargsDict fields => KwargsDict (upd fields)
  end.

(** The two assignments that end [generate_confirmation_token]. *)
Definition issue (token : string) (now : Z) (u : User) : User :=
  with_confirmation_sent_at (Some now)
    (with_confirmation_token (Some token) u).

(** A computation that has no loop to run out of fuel in. *)
Definition returns_or_raises {A} (m : M A) : Prop :=
  forall w, (exists a w', m w = (Val a, w')) \/
            (exists e w', m w = (Exc e, w')).

(** The world after a login that flask-login accepted. *)
Definition login_effect (app : App) (user : ref) (remember : bool)
    (w : World) : World :=
  set_logged (logged w ++ [LogLoggedIn user])
    (set_signals (signals w ++ [identity_changed (Some user)])
       (set_current_user (Some (user, remember))
          (set_session (login_session app user remember (session w)) w))).

(** ** A sample deployment

    Three registered users: alice's token was issued long ago, bob's a
    moment ago, carol is confirmed.  The entropy source first repeats
    the thirty bytes behind alice's token. *)
Module Sample.

(** The session keys of flask-login, for users numbered below ten. *)
Definition sample_login (user : ref) (remember : bool)
    (s : gmap string string) : gmap string string :=
  let s := <["_fresh" := "True"]>
             (<["user_id" := String (ascii_of_nat (48 + user)) EmptyString]> s) in
  if remember then <["remember" := "set"]> s else s.

Definition sample_logout (s : gmap string string) : gmap string string :=
  delete "_fresh" (delete "user_id" s).

Definition sample_security (confirm login_unconfirmed : bool) : Security :=
  mkSecurity confirm 100 "100 microseconds" login_unconfirmed "noreply@site"
    (PStr "/home") PNone PNone (PStr "/") (PStr "/register") (PStr "/login")
    (fun _ _ => inl (BadCredentialsError "Invalid password")).

Definition sample_app (confirm login_unconfirmed do_flash : bool) : App :=
  mkApp (if do_flash then {["SECURITY_FLASH_MESSAGES" := PBool true]} else ∅)
    false (sample_security confirm login_unconfirmed)
    (fun _ => None)
    (fun token => "/confirm?confirmation_token=" ++ default "" token)
    (fun template _ => template)
    (fun n => 1000 + Z.of_nat n)
    (fun n => if (n <? 30)%nat then Byte.x00 else Byte.x01)
    sample_login sample_logout.

Definition token_of (b : Byte.byte) : string :=
  urlsafe_b64encode (replicate 30 b).

Definition alice : User :=
  mkUser "alice@site" "pw" true None (Some (token_of Byte.x00)) (Some 0).
Definition bob : User :=
  mkUser "bob@site" "pw" true None (Some (token_of Byte.x02)) (Some 990).
Definition carol : User :=
  mkUser "carol@site" "pw" true (Some 7) (Some (token_of Byte.x03)) (Some 0).
Definition dave : User :=
  mkUser "dave@site" "pw" true None None None.

Definition sample_request (valid : bool) : Request :=
  mkRequest ∅ ∅ PNone "http://site/" (mkLoginForm "alice@site" "pw" true)
    (fun _ => mkRegisterForm valid dave).

Definition confirm_request (token : string) : Request :=
  mkRequest {["confirmation_token" := token]} ∅ PNone "http://site/"
    (mkLoginForm "alice@site" "pw" true) (fun _ => mkRegisterForm false dave).

(** A valid registration of a user the datastore creates inactive. *)
Definition inactive_request : Request :=
  mkRequest ∅ ∅ PNone "http://site/" (mkLoginForm "alice@site" "pw" true)
    (fun _ => mkRegisterForm true
                (mkUser "gina@site" "pw" false None None None)).

(** A confirmation window that reaches back before the first
    [datetime]. *)
Definition overdue_app : App :=
  mkApp {["SECURITY_FLASH_MESSAGES" := PBool true]} false
    (mkSecurity true 5000 "5000 microseconds" false "noreply@site"
       (PStr "/home") PNone PNone (PStr "/") (PStr "/register")
       (PStr "/login") (fun _ _ => inl (BadCredentialsError "Invalid password")))
    (fun _ => None)
    (fun token => "/confirm?confirmation_token=" ++ default "" token)
    (fun template _ => template)
    (fun n => 1000 + Z.of_nat n)
    (fun n => if (n <? 30)%nat then Byte.x00 else Byte.x01)
    sample_login sample_logout.

(** A provider interrupted from the keyboard. *)
Definition interrupted_app : App :=
  mkApp {["SECURITY_FLASH_MESSAGES" := PBool true]} false
    (mkSecurity true 100 "100 microseconds" true "noreply@site"
       (PStr "/home") PNone PNone (PStr "/") (PStr "/register")
       (PStr "/login") (fun _ _ => inl KeyboardInterrupt))
    (fun _ => None)
    (fun token => "/confirm?confirmation_token=" ++ default "" token)
    (fun template _ => template)
    (fun n => 1000 + Z.of_nat n)
    (fun n => if (n <? 30)%nat then Byte.x00 else Byte.x01)
    sample_login sample_logout.

(** A request that asks to be sent on to [/profile]. *)
Definition next_request : Request :=
  mkRequest {["next" := "/profile"]} ∅ PNone "http://site/"
    (mkLoginForm "alice@site" "pw" true) (fun _ => mkRegisterForm false dave).

(** A provider that vouches for [user], with or without a configured
    post-login view. *)
Definition accepting_app (user : ref) (configured : bool) : App :=
  mkApp (if configured
         then {["SECURITY_FLASH_MESSAGES" := PBool true;
                "SECURITY_POST_LOGIN_VIEW" := PStr "/home"]}
         else {["SECURITY_FLASH_MESSAGES" := PBool true]})
    false
    (mkSecurity true 100 "100 microseconds" true "noreply@site"
       (PStr "/home") PNone PNone (PStr "/") (PStr "/register")
       (PStr "/login") (fun _ _ => inr user))
    (fun _ => None)
    (fun token => "/confirm?confirmation_token=" ++ default "" token)
    (fun template _ => template)
    (fun n => 1000 + Z.of_nat n)
    (fun n => if (n <? 30)%nat then Byte.x00 else Byte.x01)
    sample_login sample_logout.

Definition erin : User :=
  mkUser "erin@site" "pw" false (Some 5) None None.

(** Frank holds a token but was never stamped with its issue time. *)
Definition frank : User :=
  mkUser "frank@site" "pw" true None (Some (token_of Byte.x05)) None.

Definition sample_world : World :=
  mkWorld [ModelObj alice (Some alice); ModelObj bob (Some bob);
           ModelObj carol (Some carol)]
    0 0 [] [] [] [] ∅ None.

Definition crowded_world : World :=
  mkWorld [ModelObj alice (Some alice); ModelObj bob (Some bob);
           ModelObj carol (Some carol); ModelObj erin (Some erin);
           ModelObj frank (Some frank)]
    0 0 [] [] [] []
    {["identity.name" := "alice"; "other" := "kept"]} (Some (0%nat, true)).

End Sample.

Arguments find_user token w : simpl never.
Arguments getattr {A} user field w : simpl never.

(** * Sanity checks of the embedding *)

Example upper_key : upper "flash_messages" = "FLASH_MESSAGES".
Proof. reflexivity. Qed.

Example token_length :
  String.length (Sample.token_of Byte.xff) = 40%nat.
Proof. reflexivity. Qed.

(** The [confirm] view on alice's stale token: the token is reissued,
    one mail leaves, and the visitor is sent to the root. *)
Example confirm_view_reissues :
  let '(response, w) :=
    confirm (Sample.sample_app true false true)
      (Sample.confirm_request (Sample.token_of Byte.x00)) 5
      Sample.sample_world in
  response = Val (redirect (PStr "/")) /\
  length (outbox w) = 1%nat /\
  signals w = [confirm_instructions_sent 0%nat] /\
  (confirmation_token ∘ cell_fields <$> heap w !! 0%nat)
    = Some (Some (Sample.token_of Byte.x01)).
Proof. vm_compute. repeat split. Qed.

Example b64_Man :
  urlsafe_b64encode [Byte.x4d; Byte.x61; Byte.x6e] = "TWFu".
Proof. reflexivity. Qed.

Example b64_url_alphabet :
  urlsafe_b64encode [Byte.xfb; Byte.xff; Byte.xbe; Byte.x4d] = "-_--TQ==".
Proof. reflexivity. Qed.

(** * Reasoning principles *)

Section Effects.

Context {A B : Type}.
Implicit Types (m : M A) (f : A -> M B) (w : World).

Lemma bind_Val m f w a w' :
  m w = (Val a, w') -> (m ≫= f) w = f a w'.
Proof. intros H. unfold mbind, M_bind. now rewrite H. Qed.

Lemma bind_Exc m f w e w' :
  m w = (Exc e, w') -> (m ≫= f) w = (Exc e, w').
Proof. intros H. unfold mbind, M_bind. now rewrite H. Qed.

Lemma bind_Fuel m f w w' :
  m w = (Fuel, w') -> (m ≫= f) w = (Fuel, w').
Proof. intros H. unfold mbind, M_bind. now rewrite H. Qed.

Lemma try_Val m h w a w' :
  m w = (Val a, w') -> try_except m h w = (Val a, w').
Proof. intros H. unfold try_except. now rewrite H. Qed.

Lemma try_Exc m h w e w' :
  m w = (Exc e, w') ->
  try_except m h w =
    match h e with Some k => k w' | None => (Exc e, w') end.
Proof. intros H. unfold try_except. now rewrite H. Qed.

End Effects.

Lemma find_user_unknown token w :
  token_unknown token (heap w) -> find_user token w = (Exc UserNotFoundError, w).
Proof.
  intros H. unfold find_user.
  now rewrite (proj2 (list_find_None (row_has_token token) (heap w)) H).
Qed.

Lemma find_user_cases token w :
  (exists user, find_user token w = (Val user, w)) \/
  (find_user token w = (Exc UserNotFoundError, w) /\
   token_unknown token (heap w)).
Proof.
  unfold find_user.
  destruct (list_find (row_has_token token) (heap w)) as [[user c]|] eqn:E.
  - left. now exists user.
  - right. split; [reflexivity|]. now apply (list_find_None (row_has_token token)).
Qed.

(** The row the datastore answered from holds the token. *)
Lemma find_user_row token w user w' :
  find_user token w = (Val user, w') ->
  w' = w /\
  exists live row, heap w !! user = Some (ModelObj live (Some row)) /\
                   confirmation_token row = Some token.
Proof.
  unfold find_user.
  destruct (list_find (row_has_token token) (heap w)) as [[i c]|] eqn:E;
    [|discriminate].
  intros [= <- <-]. split; [reflexivity|].
  apply list_find_Some in E as (Hi & Hc & _).
  destruct c as [live [row|]|fields]; simpl in Hc; try contradiction.
  now exists live, row.
Qed.

Lemma getattr_obj {A} (field : User -> A) user w live stored :
  heap w !! user = Some (ModelObj live stored) ->
  getattr user field w = (Val (field live), w).
Proof. intros H. unfold getattr. now rewrite H. Qed.

(** * The expiry predicate *)

(** The predicate with confirmation enabled: the deadline is computed
    first, then the issue time is read and compared. *)
Lemma expired_run app user w live stored :
  confirm_email (security app) = true ->
  heap w !! user = Some (ModelObj live stored) ->
  confirmation_token_is_expired app user w =
    (if is_datetime (clock app (ticks w) - confirm_email_within (security app))
     then match confirmation_sent_at live with
          | Some t =>
              Val (t <? clock app (ticks w)
                          - confirm_email_within (security app))
          | None => Exc TypeError
          end
     else Exc OverflowError,
     set_ticks (S (ticks w)) w).
Proof.
  intros Hon Hobj.
  unfold confirmation_token_is_expired, should_confirm_email. rewrite Hon.
  erewrite bind_Val; [|reflexivity].
  unfold datetime_sub.
  destruct (is_datetime (clock app (ticks w)
                         - confirm_email_within (security app)));
    [|reflexivity].
  erewrite bind_Val; [|reflexivity].
  erewrite bind_Val;
    [|now apply (getattr_obj confirmation_sent_at user _ live stored)].
  now destruct (confirmation_sent_at live).
Qed.

Lemma expired_overflow app user w :
  confirm_email (security app) = true ->
  is_datetime (clock app (ticks w) - confirm_email_within (security app))
    = false ->
  confirmation_token_is_expired app user w =
    (Exc OverflowError, set_ticks (S (ticks w)) w).
Proof.
  intros Hon Hrange.
  unfold confirmation_token_is_expired, should_confirm_email. rewrite Hon.
  erewrite bind_Val; [|reflexivity].
  unfold datetime_sub. now rewrite Hrange.
Qed.

(** C2, as the code has it.  With confirmation disabled the expiry
    predicate answers false for every user, whatever the user holds.
    With confirmation enabled it reads the clock once and then: when
    [now - confirm_email_within] is not a [datetime] it raises
    [OverflowError], for every user; otherwise, for a user whose token
    was issued at [t], it answers true exactly when
    [now - t > confirm_email_within], and for a user without an issue
    time it raises [TypeError]. *)
Theorem expiry_predicate app user w :
  (confirm_email (security app) = false ->
   confirmation_token_is_expired app user w = (Val false, w)) /\
  (confirm_email (security app) = true ->
   is_datetime (clock app (ticks w) - confirm_email_within (security app))
     = false ->
   confirmation_token_is_expired app user w
     = (Exc OverflowError, set_ticks (S (ticks w)) w)) /\
  (forall live stored,
     confirm_email (security app) = true ->
     is_datetime (clock app (ticks w) - confirm_email_within (security app))
       = true ->
     heap w !! user = Some (ModelObj live stored) ->
     match confirmation_sent_at live with
     | Some t =>
         exists b,
           confirmation_token_is_expired app user w
             = (Val b, set_ticks (S (ticks w)) w) /\
           (b = true <->
            clock app (ticks w) - t > confirm_email_within (security app))
     | None =>
         confirmation_token_is_expired app user w
           = (Exc TypeError, set_ticks (S (ticks w)) w)
     end).
Proof.
  split; [|split].
  - unfold confirmation_token_is_expired, should_confirm_email.
    intros ->. reflexivity.
  - apply expired_overflow.
  - intros live stored Hon Hrange Hobj.
    rewrite (expired_run app user w live stored Hon Hobj), Hrange.
    destruct (confirmation_sent_at live) as [t|]; [|reflexivity].
    exists (t <? clock app (ticks w) - confirm_email_within (security app)).
    split; [reflexivity|].
    rewrite Z.ltb_lt. lia.
Qed.

Lemma expiry_predicate_witness :
  confirmation_token_is_expired (Sample.sample_app false false true) 1%nat
      Sample.sample_world = (Val false, Sample.sample_world) /\
  confirmation_token_is_expired Sample.overdue_app 1%nat Sample.sample_world
    = (Exc OverflowError, set_ticks 1 Sample.sample_world) /\
  (exists b,
     confirmation_token_is_expired (Sample.sample_app true false true) 1%nat
         Sample.sample_world
       = (Val b, set_ticks 1 Sample.sample_world) /\
     (b = true <-> 1000 - 990 > 100)) /\
  confirmation_token_is_expired (Sample.sample_app true false true) 4%nat
      Sample.crowded_world
    = (Exc TypeError, set_ticks 1 Sample.crowded_world).
Proof.
  split; [|split; [|split]].
  - apply (expiry_predicate (Sample.sample_app false false true) 1%nat
             Sample.sample_world). reflexivity.
  - apply (expiry_predicate Sample.overdue_app 1%nat Sample.sample_world);
      reflexivity.
  - apply (proj2 (proj2 (expiry_predicate (Sample.sample_app true false true)
                           1%nat Sample.sample_world))
             Sample.bob (Some Sample.bob)); reflexivity.
  - apply (proj2 (proj2 (expiry_predicate (Sample.sample_app true false true)
                           4%nat Sample.crowded_world))
             Sample.frank (Some Sample.frank)); reflexivity.
Defined.

(** A user who holds a token without an issue time: with confirmation
    enabled the predicate does not answer, it raises. *)
Lemma expiry_of_unstamped_user_raises :
  heap Sample.crowded_world !! 4%nat
    = Some (ModelObj Sample.frank (Some Sample.frank)) /\
  confirmation_sent_at Sample.frank = None /\
  confirmation_token_is_expired (Sample.sample_app true false true) 4%nat
      Sample.crowded_world
    = (Exc TypeError, set_ticks 1 Sample.crowded_world).
Proof. repeat split. Qed.

(** * confirm_by_token: the failure paths *)

(** C7.  A null, an empty or an unknown token makes [confirm_by_token]
    raise a [ConfirmationError] and nothing else; the world is left as
    it was. *)
Theorem confirm_by_token_bad_token app token w :
  token = None \/ token = Some "" \/
    (exists t, token = Some t /\ token_unknown t (heap w)) ->
  exists msg, confirm_by_token app token w = (Exc (ConfirmationError msg), w).
Proof.
  intros [-> | [-> | (t & -> & Hunknown)]].
  - now exists "Confirmation token required".
  - now exists "Confirmation token required".
  - destruct t as [|c t'].
    + now exists "Confirmation token required".
    + exists "Invalid confirmation token".
      unfold confirm_by_token. apply bind_Exc.
      rewrite (try_Exc _ _ w UserNotFoundError w); [reflexivity|].
      unfold find_user_by_confirmation_token. simpl.
      now apply find_user_unknown.
Qed.

Lemma confirm_by_token_bad_token_witness :
  exists msg,
    confirm_by_token (Sample.sample_app true false true)
        (Some (Sample.token_of Byte.x09)) Sample.sample_world
      = (Exc (ConfirmationError msg), Sample.sample_world).
Proof.
  apply confirm_by_token_bad_token. right. right.
  exists (Sample.token_of Byte.x09). split; [reflexivity|].
  unfold token_unknown. simpl. repeat constructor; vm_compute; discriminate.
Defined.

(** C6.  When the token finds a user whose [confirmed_at] is set,
    [confirm_by_token] raises a [ConfirmationError] before it mutates
    anything: the world after the call, heap and datastore rows
    included, is the world before it. *)
Theorem confirm_by_token_already_confirmed app t w user live stored at_ :
  find_user t w = (Val user, w) ->
  heap w !! user = Some (ModelObj live stored) ->
  confirmed_at live = Some at_ ->
  confirm_by_token app (Some t) w =
    (Exc (ConfirmationError
            (if truthy t then "Account has already been confirmed"
             else "Confirmation token required")), w).
Proof.
  intros Hfind Hobj Hat. unfold confirm_by_token.
  destruct t as [|c t']; [reflexivity|]. simpl truthy.
  erewrite bind_Val; [|erewrite try_Val; [reflexivity|exact Hfind]].
  erewrite bind_Val; [|now apply (getattr_obj confirmed_at user w live stored)].
  now rewrite Hat.
Qed.

Lemma confirm_by_token_already_confirmed_witness :
  confirm_by_token (Sample.sample_app true false true)
      (Some (Sample.token_of Byte.x03)) Sample.sample_world
    = (Exc (ConfirmationError "Account has already been confirmed"),
       Sample.sample_world).
Proof.
  apply (confirm_by_token_already_confirmed
           (Sample.sample_app true false true) (Sample.token_of Byte.x03)
           Sample.sample_world 2%nat Sample.carol (Some Sample.carol) 7);
    reflexivity.
Defined.

(** * register *)

(** C10.  When the registration form does not validate, [register]
    changes nothing: it answers with a redirect to the referrer or the
    register URL in the very world it was called in (no user created, no
    notification, no mail, no login). *)
Theorem register_invalid_form app request w :
  validate_on_submit (RegisterForm_of request (negb (testing app))) = false ->
  register app request w =
    (Val (redirect (py_or (referrer request) (register_url (security app)))),
     w).
Proof. intros H. unfold register. now rewrite H. Qed.

Lemma register_invalid_form_witness :
  register (Sample.sample_app true false true) (Sample.sample_request false)
      Sample.sample_world
    = (Val (redirect (PStr "/register")), Sample.sample_world).
Proof.
  apply (register_invalid_form (Sample.sample_app true false true)
           (Sample.sample_request false) Sample.sample_world).
  reflexivity.
Defined.

(** * confirm_by_token: the success path *)

Lemma setattr_obj upd user w live stored :
  heap w !! user = Some (ModelObj live stored) ->
  setattr user upd w =
    (Val tt, set_heap (<[user := ModelObj (upd live) stored]> (heap w)) w).
Proof. intros H. unfold setattr. now rewrite H. Qed.

Lemma setitem_obj upd user w live stored :
  heap w !! user = Some (ModelObj live stored) ->
  setitem user upd w = (Exc TypeError, w).
Proof. intros H. unfold setitem. now rewrite H. Qed.

Lemma save_model_obj user w live stored :
  heap w !! user = Some (ModelObj live stored) ->
  _save_model user w =
    (Val user, set_heap (<[user := ModelObj live (Some live)]> (heap w)) w).
Proof. intros H. unfold _save_model. now rewrite H. Qed.

Lemma lookup_updated (h : list Cell) user c c' :
  h !! user = Some c -> <[user := c']> h !! user = Some c'.
Proof. intros H. apply list_lookup_insert_eq. eapply lookup_lt_Some, H. Qed.

(** The expiry predicate reads the clock at most once and touches
    nothing else. *)
Lemma expired_frame app user w r w1 :
  confirmation_token_is_expired app user w = (r, w1) ->
  w1 = w \/ w1 = set_ticks (S (ticks w)) w.
Proof.
  unfold confirmation_token_is_expired, should_confirm_email.
  destruct (confirm_email (security app)).
  - unfold mbind, M_bind, utcnow, datetime_sub, getattr, raise, mret, M_ret.
    cbn [heap set_ticks].
    destruct (is_datetime _); [|intros [= <- <-]; now right].
    cbn [heap set_ticks].
    destruct (heap w !! user) as [[live stored|fields]|];
      try (intros [= <- <-]; now right).
    destruct (confirmation_sent_at live); intros [= <- <-]; now right.
  - intros [= <- <-]. now left.
Qed.

(** What [confirm_by_token] does once the user is found, unconfirmed
    and unexpired. *)
Lemma confirm_by_token_run app t w user live stored w1 :
  truthy t = true ->
  find_user t w = (Val user, w) ->
  heap w !! user = Some (ModelObj live stored) ->
  confirmed_at live = None ->
  confirmation_token_is_expired app user w = (Val false, w1) ->
  let confirmed := with_confirmed_at (Some (clock app (ticks w1))) live in
  confirm_by_token app (Some t) w =
    (Val user,
     set_signals (signals w1 ++ [user_confirmed user])
       (set_heap (<[user := ModelObj confirmed (Some confirmed)]> (heap w1))
          (set_ticks (S (ticks w1)) w1))) /\
  heap w1 = heap w /\ signals w1 = signals w /\ outbox w1 = outbox w /\
  current_user w1 = current_user w.
Proof.
  intros Htruthy Hfind Hobj Hnone Hexp confirmed.
  assert (Hframe : heap w1 = heap w /\ signals w1 = signals w /\
                   outbox w1 = outbox w /\ current_user w1 = current_user w).
  { destruct (expired_frame _ _ _ _ _ Hexp) as [-> | ->]; now repeat split. }
  split; [|exact Hframe]. destruct Hframe as (Hheap & _).
  unfold confirm_by_token.
  erewrite bind_Val;
    [|erewrite try_Val; [reflexivity|];
      unfold find_user_by_confirmation_token; rewrite Htruthy; exact Hfind].
  erewrite bind_Val; [|now apply (getattr_obj confirmed_at user w live stored)].
  rewrite Hnone. simpl.
  erewrite bind_Val; [|exact Hexp]. simpl.
  rewrite <- Hheap in Hobj.
  erewrite bind_Val; [|reflexivity].
  erewrite bind_Val; [|now apply (setattr_obj _ user _ live stored)].
  erewrite bind_Val;
    [|apply (save_model_obj user _ confirmed stored); simpl;
      now apply (lookup_updated _ _ (ModelObj live stored))].
  simpl. unfold mbind, M_bind, send_signal, modify. simpl.
  now rewrite list_insert_insert_eq.
Qed.

(** C4.  For a user found by a valid, unexpired token and not yet
    confirmed, [confirm_by_token] returns that user after setting
    [confirmed_at] to the reading of the clock, persisting the object
    (its datastore row becomes the updated fields) and sending exactly
    one [user_confirmed] notification; no mail is sent. *)
Theorem confirm_by_token_confirms app t w user live stored w1 :
  truthy t = true ->
  find_user t w = (Val user, w) ->
  heap w !! user = Some (ModelObj live stored) ->
  confirmed_at live = None ->
  confirmation_token_is_expired app user w = (Val false, w1) ->
  exists now w',
    confirm_by_token app (Some t) w = (Val user, w') /\
    heap w' =
      <[user := ModelObj (with_confirmed_at (Some now) live)
                         (Some (with_confirmed_at (Some now) live))]> (heap w) /\
    confirmed_at (with_confirmed_at (Some now) live) = Some now /\
    signals w' = (signals w ++ [user_confirmed user])%list /\
    outbox w' = outbox w.
Proof.
  intros Htruthy Hfind Hobj Hnone Hexp.
  destruct (confirm_by_token_run app t w user live stored w1)
    as (Hrun & Hheap & Hsig & Hout & _); try assumption.
  eexists _, _. split; [exact Hrun|]. simpl.
  now rewrite Hheap, Hsig, Hout.
Qed.

Lemma confirm_by_token_confirms_witness :
  exists now w',
    confirm_by_token (Sample.sample_app true false true)
        (Some (Sample.token_of Byte.x02)) Sample.sample_world
      = (Val 1%nat, w') /\
    heap w' =
      <[1%nat := ModelObj (with_confirmed_at (Some now) Sample.bob)
                   (Some (with_confirmed_at (Some now) Sample.bob))]>
        (heap Sample.sample_world) /\
    confirmed_at (with_confirmed_at (Some now) Sample.bob) = Some now /\
    signals w' = (signals Sample.sample_world ++ [user_confirmed 1%nat])%list /\
    outbox w' = outbox Sample.sample_world.
Proof.
  apply (confirm_by_token_confirms (Sample.sample_app true false true)
           (Sample.token_of Byte.x02) Sample.sample_world 1%nat Sample.bob
           (Some Sample.bob) (set_ticks 1 Sample.sample_world));
    reflexivity.
Defined.

(** Replacing the cell the datastore answered from by one whose row
    still holds the token does not change the answer. *)
Lemma find_user_updated token w user c' w' :
  find_user token w = (Val user, w) ->
  row_has_token token c' ->
  heap w' = <[user := c']> (heap w) ->
  find_user token w' = (Val user, w').
Proof.
  unfold find_user. intros Hfind Hrow Hheap.
  destruct (list_find (row_has_token token) (heap w)) as [[i c]|] eqn:E;
    [|discriminate].
  injection Hfind as ->.
  apply list_find_Some in E as (Hi & Hc & Hleast).
  assert (E' : list_find (row_has_token token) (heap w') = Some (user, c')).
  { apply list_find_Some. rewrite Hheap. split; [|split].
    - now apply (lookup_updated _ _ c).
    - exact Hrow.
    - intros j y Hj Hlt. rewrite list_lookup_insert_ne in Hj by lia.
      now apply (Hleast j). }
  now rewrite E'.
Qed.

(** C8.  A successful confirmation leaves [confirmation_token] and
    [confirmation_sent_at] of the user as they were: only [confirmed_at]
    changes, the saved row carries the same token, and when the object
    was in step with its row the consumed token still finds the user. *)
Theorem confirm_by_token_keeps_token app t w user live stored w1 :
  truthy t = true ->
  find_user t w = (Val user, w) ->
  heap w !! user = Some (ModelObj live stored) ->
  confirmed_at live = None ->
  confirmation_token_is_expired app user w = (Val false, w1) ->
  exists confirmed w',
    confirm_by_token app (Some t) w = (Val user, w') /\
    heap w' !! user = Some (ModelObj confirmed (Some confirmed)) /\
    confirmed_at confirmed <> None /\
    confirmation_token confirmed = confirmation_token live /\
    confirmation_sent_at confirmed = confirmation_sent_at live /\
    (stored = Some live -> find_user t w' = (Val user, w')).
Proof.
  intros Htruthy Hfind Hobj Hnone Hexp.
  destruct (confirm_by_token_run app t w user live stored w1)
    as (Hrun & Hheap & _); try assumption.
  eexists _, _. split; [exact Hrun|]. simpl. rewrite Hheap.
  split; [now apply (lookup_updated _ _ (ModelObj live stored))|].
  split; [discriminate|]. do 2 (split; [reflexivity|]).
  intros ->. eapply find_user_updated; [exact Hfind| |reflexivity].
  simpl. apply find_user_row in Hfind as (_ & live' & row & Hobj' & Hrow).
  rewrite Hobj in Hobj'. now injection Hobj' as <- <-.
Qed.

Lemma confirm_by_token_keeps_token_witness :
  exists confirmed w',
    confirm_by_token (Sample.sample_app true false true)
        (Some (Sample.token_of Byte.x02)) Sample.sample_world
      = (Val 1%nat, w') /\
    heap w' !! 1%nat = Some (ModelObj confirmed (Some confirmed)) /\
    confirmed_at confirmed <> None /\
    confirmation_token confirmed = confirmation_token Sample.bob /\
    confirmation_sent_at confirmed = confirmation_sent_at Sample.bob /\
    (Some Sample.bob = Some Sample.bob ->
     find_user (Sample.token_of Byte.x02) w' = (Val 1%nat, w')).
Proof.
  apply (confirm_by_token_keeps_token (Sample.sample_app true false true)
           (Sample.token_of Byte.x02) Sample.sample_world 1%nat Sample.bob
           (Some Sample.bob) (set_ticks 1 Sample.sample_world));
    reflexivity.
Defined.

(** * Token generation *)

Lemma b64_truthy (bs : list Byte.byte) :
  bs <> [] -> truthy (urlsafe_b64encode bs) = true.
Proof. destruct bs as [|a [|b [|c rest]]]; [contradiction|reflexivity..]. Qed.

Lemma candidate_truthy app pos k : truthy (candidate app pos k) = true.
Proof. unfold candidate. now apply b64_truthy. Qed.

Lemma candidate_shift app pos k :
  candidate app (pos + 30) k = candidate app pos (S k).
Proof.
  unfold candidate. f_equal. apply map_ext. intros i. f_equal. lia.
Qed.

Lemma generate_token_run app w :
  generate_token app w =
    (Val (candidate app (drawn w) 0), set_drawn (drawn w + 30) w).
Proof.
  unfold generate_token, candidate, mbind, M_bind, urandom, mret, M_ret.
  cbv beta iota. do 3 f_equal. apply map_ext. intros i. f_equal. lia.
Qed.

(** One turn of the loop: the probe of a drawn token. *)
Lemma probe_run token w :
  truthy token = true ->
  try_except
    (_ ← find_user_by_confirmation_token (Some token); mret true)
    (fun e => match e with
              | UserNotFoundError => Some (mret false)
              | _ => None
              end) w
  = (Val (bool_decide (~ token_unknown token (heap w))), w).
Proof.
  intros Htruthy. unfold find_user_by_confirmation_token. rewrite Htruthy.
  destruct (find_user_cases token w) as [[user Hfound] | [Hnone Hunknown]].
  - erewrite try_Val; [|erewrite bind_Val; [reflexivity|exact Hfound]].
    rewrite bool_decide_eq_true_2; [reflexivity|].
    intros Hunknown. apply find_user_unknown in Hunknown. congruence.
  - rewrite (try_Exc _ _ w UserNotFoundError w);
      [|now apply bind_Exc].
    rewrite bool_decide_eq_false_2; [reflexivity|]. now intros H.
Qed.

(** Whatever the loop returns was unknown to the datastore, and the
    loop only consumed entropy. *)
Lemma fresh_token_sound app fuel : forall w token w',
  fresh_token app fuel w = (Val token, w') ->
  token_unknown token (heap w) /\ heap w' = heap w /\ ticks w' = ticks w.
Proof.
  induction fuel as [|fuel IH]; intros w token w'; [discriminate|].
  simpl. erewrite bind_Val; [|apply generate_token_run].
  erewrite bind_Val; [|apply probe_run, candidate_truthy].
  case_bool_decide as Hknown.
  - intros H. apply IH in H. exact H.
  - intros [= <- <-]. split; [|now split].
    destruct (decide (token_unknown (candidate app (drawn w) 0) (heap w)))
      as [H|H]; [exact H|]. now contradiction Hknown.
Qed.

(** With a fresh candidate within reach of the fuel, the loop returns. *)
Lemma fresh_token_run app fuel : forall w k,
  (k < fuel)%nat ->
  token_unknown (candidate app (drawn w) k) (heap w) ->
  exists k0, (k0 <= k)%nat /\
    token_unknown (candidate app (drawn w) k0) (heap w) /\
    fresh_token app fuel w =
      (Val (candidate app (drawn w) k0),
       set_drawn (drawn w + 30 * S k0) w).
Proof.
  induction fuel as [|fuel IH]; intros w k Hk Hfresh; [lia|].
  simpl fresh_token. erewrite bind_Val; [|apply generate_token_run].
  erewrite bind_Val; [|apply probe_run, candidate_truthy].
  case_bool_decide as Hknown.
  - destruct k as [|k].
    { now contradiction Hknown. }
    destruct (IH (set_drawn (drawn w + 30) w) k) as (k0 & Hle & Hk0 & Hrun).
    + lia.
    + cbn [drawn heap set_drawn]. now rewrite candidate_shift.
    + exists (S k0). cbn [drawn heap set_drawn] in Hk0, Hrun.
      rewrite candidate_shift in Hk0, Hrun.
      split; [lia|]. split; [exact Hk0|]. rewrite Hrun.
      unfold set_drawn. cbn [heap ticks drawn outbox signals flashes logged
                             session current_user].
      do 2 f_equal. lia.
  - exists 0%nat. split; [lia|].
    assert (H : token_unknown (candidate app (drawn w) 0) (heap w)).
    { destruct (decide (token_unknown (candidate app (drawn w) 0) (heap w)))
        as [H|H]; [exact H|]. now contradiction Hknown. }
    split; [exact H|]. reflexivity.
Qed.

(** The two assignments, mapping style first and attribute style on
    [TypeError], reach the fields of either kind of record. *)
Lemma assign_run token now user w c :
  heap w !! user = Some c ->
  try_except
    (setitem user (with_confirmation_token (Some token));;
     setitem user (with_confirmation_sent_at (Some now)))
    (fun e => match e with
              | TypeError =>
                  Some (setattr user (with_confirmation_token (Some token));;
                        setattr user (with_confirmation_sent_at (Some now)))
              | _ => None
              end) w
  = (Val tt, set_heap (<[user := cell_map (issue token now) c]> (heap w)) w).
Proof.
  intros Hc. destruct c as [live stored|fields].
  - rewrite (try_Exc _ _ w TypeError w);
      [|apply bind_Exc; now apply (setitem_obj _ user w live stored)].
    erewrite bind_Val; [|now apply (setattr_obj _ user w live stored)].
    erewrite (setattr_obj _ user _ _ stored);
      [|cbn [heap set_heap]; now apply (lookup_updated _ _ (ModelObj live stored))].
    cbn [heap set_heap]. now rewrite list_insert_insert_eq.
  - unfold try_except, mbind, M_bind, setitem. rewrite Hc.
    cbn [heap set_heap].
    rewrite (lookup_updated _ _ (KwargsDict fields)) by exact Hc.
    now rewrite list_insert_insert_eq.
Qed.

Lemma generate_confirmation_token_run app fuel user w c k :
  heap w !! user = Some c ->
  (k < fuel)%nat ->
  token_unknown (candidate app (drawn w) k) (heap w) ->
  exists k0, (k0 <= k)%nat /\
    token_unknown (candidate app (drawn w) k0) (heap w) /\
    generate_confirmation_token app fuel user w =
      (Val user,
       set_heap
         (<[user := cell_map (issue (candidate app (drawn w) k0)
                                (clock app (ticks w))) c]> (heap w))
         (set_ticks (S (ticks w)) (set_drawn (drawn w + 30 * S k0) w))).
Proof.
  intros Hc Hk Hfresh.
  destruct (fresh_token_run app fuel w k Hk Hfresh) as (k0 & Hle & Hk0 & Hrun).
  exists k0. split; [exact Hle|]. split; [exact Hk0|].
  unfold generate_confirmation_token.
  erewrite bind_Val; [|exact Hrun].
  erewrite bind_Val; [|reflexivity].
  erewrite bind_Val; [|now apply (assign_run _ _ user _ c)].
  reflexivity.
Qed.

(** C3.  Whenever [generate_confirmation_token] returns, the token it
    assigned was held by no row of the datastore when it was assigned
    (the datastore is the same at the probe and at the assignment); and
    it does return, with the token on the user, as soon as the entropy
    source yields a fresh candidate within the fuel of the loop. *)
Theorem generated_token_is_unique app fuel user w :
  (forall w', generate_confirmation_token app fuel user w = (Val user, w') ->
     exists token c',
       heap w' !! user = Some c' /\
       confirmation_token (cell_fields c') = Some token /\
       token_unknown token (heap w)) /\
  (forall c k,
     heap w !! user = Some c ->
     (k < fuel)%nat ->
     token_unknown (candidate app (drawn w) k) (heap w) ->
     exists token w',
       generate_confirmation_token app fuel user w = (Val user, w') /\
       (cell_fields <$> heap w' !! user) =
         Some (issue token (clock app (ticks w)) (cell_fields c)) /\
       token_unknown token (heap w) /\
       (forall other, other <> user -> heap w' !! other = heap w !! other)).
Proof.
  split.
  - intros w'. unfold generate_confirmation_token.
    destruct (fresh_token app fuel w) as [[token| |] w1] eqn:Hloop;
      try (unfold mbind, M_bind; rewrite Hloop; discriminate).
    apply fresh_token_sound in Hloop as Hsound.
    destruct Hsound as (Hunknown & Hheap & _).
    erewrite bind_Val; [|exact Hloop].
    erewrite bind_Val; [|reflexivity].
    destruct (heap w !! user) as [c|] eqn:Hc.
    + erewrite bind_Val;
        [|apply (assign_run _ _ user _ c); cbn [heap set_ticks];
          now rewrite Hheap].
      intros [= <-]. cbn [heap set_heap set_ticks]. rewrite Hheap.
      exists token, (cell_map (issue token (clock app (ticks w1))) c).
      split; [now apply (lookup_updated _ _ c)|].
      split; [now destruct c|exact Hunknown].
    + unfold mbind, M_bind, try_except, setitem. cbn [heap set_ticks].
      rewrite Hheap, Hc. discriminate.
  - intros c k Hc Hk Hfresh.
    destruct (generate_confirmation_token_run app fuel user w c k)
      as (k0 & _ & Hk0 & Hrun); try assumption.
    eexists _, _. split; [exact Hrun|]. cbn [heap set_heap].
    split; [|split; [exact Hk0|]].
    + rewrite (lookup_updated _ _ c) by exact Hc. now destruct c.
    + intros other Hne. now apply list_lookup_insert_ne.
Qed.

Lemma generated_token_is_unique_witness :
  exists token w',
    generate_confirmation_token (Sample.sample_app true false true) 5 0%nat
        Sample.sample_world = (Val 0%nat, w') /\
    (cell_fields <$> heap w' !! 0%nat) =
      Some (issue token 1000 Sample.alice) /\
    token_unknown token (heap Sample.sample_world) /\
    (forall other, other <> 0%nat ->
       heap w' !! other = heap Sample.sample_world !! other).
Proof.
  apply (proj2 (generated_token_is_unique (Sample.sample_app true false true)
                  5 0%nat Sample.sample_world)
           (ModelObj Sample.alice (Some Sample.alice)) 1%nat).
  - reflexivity.
  - lia.
  - unfold token_unknown. simpl.
    repeat constructor; vm_compute; discriminate.
Defined.

(** * Expired tokens and their reissue *)

Lemma send_confirmation_instructions_run app request user w live stored :
  heap w !! user = Some (ModelObj live stored) ->
  exists mail,
    recipients mail = [email live] /\
    send_confirmation_instructions app request user w =
      (Val true,
       set_signals (signals w ++ [confirm_instructions_sent user])
         (set_outbox (outbox w ++ [mail]) w)).
Proof.
  intros Hobj. eexists. split; [|].
  2: { unfold send_confirmation_instructions.
       erewrite bind_Val; [|now apply (getattr_obj _ user w live stored)].
       erewrite bind_Val; [|now apply (getattr_obj _ user w live stored)].
       reflexivity. }
  reflexivity.
Qed.

(** C1.  When the token finds an unconfirmed user for whom the expiry
    predicate answers true, [confirm_by_token] raises
    [TokenExpiredError] carrying the reference of that user, whose
    object and row are untouched; and [reset_confirmation_token] on that
    user then returns (given a fresh candidate within the fuel of the
    loop) with a token on the user and on its row that differs from the
    expired one, one message more in the outbox and one
    [confirm_instructions_sent] notification more. *)
Theorem expired_token_is_reissued app request fuel t w user live stored w1 k :
  truthy t = true ->
  find_user t w = (Val user, w) ->
  heap w !! user = Some (ModelObj live stored) ->
  confirmed_at live = None ->
  confirmation_token_is_expired app user w = (Val true, w1) ->
  (k < fuel)%nat ->
  token_unknown (candidate app (drawn w1) k) (heap w1) ->
  confirm_by_token app (Some t) w =
    (Exc (TokenExpiredError "Confirmation token is expired" user), w1) /\
  heap w1 = heap w /\
  exists token reissued mail w2,
    reset_confirmation_token app request fuel user w1 = (Val tt, w2) /\
    heap w2 !! user = Some (ModelObj reissued (Some reissued)) /\
    confirmation_token reissued = Some token /\
    token <> t /\
    outbox w2 = (outbox w1 ++ [mail])%list /\
    recipients mail = [email live] /\
    signals w2 = (signals w1 ++ [confirm_instructions_sent user])%list.
Proof.
  intros Htruthy Hfind Hobj Hnone Hexp Hk Hfresh.
  assert (Hheap : heap w1 = heap w).
  { destruct (expired_frame _ _ _ _ _ Hexp) as [-> | ->]; reflexivity. }
  split; [|split; [exact Hheap|]].
  - unfold confirm_by_token.
    erewrite bind_Val;
      [|erewrite try_Val; [reflexivity|];
        unfold find_user_by_confirmation_token; rewrite Htruthy; exact Hfind].
    erewrite bind_Val;
      [|now apply (getattr_obj confirmed_at user w live stored)].
    rewrite Hnone. simpl.
    erewrite bind_Val; [|exact Hexp]. reflexivity.
  - rewrite <- Hheap in Hobj.
    destruct (generate_confirmation_token_run app fuel user w1 _ k Hobj Hk Hfresh)
      as (k0 & _ & Hk0 & Hgen).
    set (token := candidate app (drawn w1) k0) in *.
    set (reissued := issue token (clock app (ticks w1)) live).
    destruct (send_confirmation_instructions_run app request user
                (set_heap (<[user := ModelObj reissued (Some reissued)]> (heap w1))
                   (set_ticks (S (ticks w1))
                      (set_drawn (drawn w1 + 30 * S k0) w1)))
                reissued (Some reissued)) as (mail & Hmail & Hsend).
    { cbn [heap set_heap]. now apply (lookup_updated _ _ (ModelObj live stored)). }
    exists token, reissued, mail. eexists. split; [|split; [|split; [|split]]].
    + unfold reset_confirmation_token.
      erewrite bind_Val; [|exact Hgen].
      erewrite bind_Val;
        [|apply (save_model_obj user _ reissued stored); cbn [heap set_heap];
          now apply (lookup_updated _ _ (ModelObj live stored))].
      cbn [heap set_heap]. rewrite list_insert_insert_eq.
      erewrite bind_Val; [|exact Hsend]. reflexivity.
    + cbn [heap set_heap set_signals set_outbox].
      now apply (lookup_updated _ _ (ModelObj live stored)).
    + reflexivity.
    + intros ->. apply find_user_row in Hfind as (_ & live' & row & Hobj' & Hrow).
      rewrite <- Hheap in Hobj'.
      unfold token_unknown in Hk0. rewrite Forall_lookup in Hk0.
      now apply (Hk0 _ _ Hobj').
    + now repeat split.
Qed.

Lemma expired_token_is_reissued_witness :
  confirm_by_token (Sample.sample_app true false true)
      (Some (Sample.token_of Byte.x00)) Sample.sample_world =
    (Exc (TokenExpiredError "Confirmation token is expired" 0%nat),
     set_ticks 1 Sample.sample_world) /\
  heap (set_ticks 1 Sample.sample_world) = heap Sample.sample_world /\
  exists token reissued mail w2,
    reset_confirmation_token (Sample.sample_app true false true)
        (Sample.sample_request true) 5 0%nat (set_ticks 1 Sample.sample_world)
      = (Val tt, w2) /\
    heap w2 !! 0%nat = Some (ModelObj reissued (Some reissued)) /\
    confirmation_token reissued = Some token /\
    token <> Sample.token_of Byte.x00 /\
    outbox w2 = (outbox (set_ticks 1 Sample.sample_world) ++ [mail])%list /\
    recipients mail = [email Sample.alice] /\
    signals w2 =
      (signals (set_ticks 1 Sample.sample_world)
         ++ [confirm_instructions_sent 0%nat])%list.
Proof.
  apply (expired_token_is_reissued (Sample.sample_app true false true)
           (Sample.sample_request true) 5 (Sample.token_of Byte.x00)
           Sample.sample_world 0%nat Sample.alice (Some Sample.alice)
           (set_ticks 1 Sample.sample_world) 1%nat);
    try reflexivity.
  - lia.
  - unfold token_unknown. simpl.
    repeat constructor; vm_compute; discriminate.
Defined.

(** * register: a valid submission *)

Lemma do_login_run app user remember w live stored :
  heap w !! user = Some (ModelObj live stored) ->
  _do_login app user remember w =
    if active live
    then (Val true, login_effect app user remember w)
    else (Val false, w).
Proof.
  intros Hobj. unfold _do_login, login_user.
  destruct (active live) eqn:Hactive.
  - erewrite bind_Val;
      [|erewrite bind_Val;
          [|now apply (getattr_obj active user w live stored)];
        rewrite Hactive; reflexivity].
    reflexivity.
  - erewrite bind_Val;
      [|erewrite bind_Val;
          [|now apply (getattr_obj active user w live stored)];
        rewrite Hactive; reflexivity].
    reflexivity.
Qed.

(** C5, as the code has it.  On a valid submission [register] creates
    the user and then: with confirmation required and login without
    confirmation disabled, sends exactly one confirmation mail (to the
    new user) and leaves the login session as it was; with confirmation
    disabled, sends no mail and hands the new user to the login
    extension, which logs the user in when the user is active and
    refuses otherwise, the registration completing all the same. *)
Theorem register_valid_form app request w :
  let form := RegisterForm_of request (negb (testing app)) in
  let user := length (heap w) in
  let location :=
    py_or (post_register_view (security app)) (post_login_view (security app)) in
  validate_on_submit form = true ->
  (confirm_email (security app) = true ->
   login_without_confirmation (security app) = false ->
   exists mail w',
     register app request w = (Val (redirect location), w') /\
     outbox w' = (outbox w ++ [mail])%list /\
     recipients mail = [email (to_dict form)] /\
     current_user w' = current_user w /\
     session w' = session w /\
     signals w' =
       (signals w ++ [user_registered user;
                      confirm_instructions_sent user])%list) /\
  (confirm_email (security app) = false ->
   exists w',
     register app request w = (Val (redirect location), w') /\
     outbox w' = outbox w /\
     current_user w' =
       (if active (to_dict form) then Some (user, true) else current_user w) /\
     signals w' =
       (signals w ++
          user_registered user ::
          (if active (to_dict form)
           then [identity_changed (Some user)] else []))%list).
Proof.
  intros form user location Hvalid.
  set (created := ModelObj (to_dict form) (Some (to_dict form))).
  set (w1 := set_signals (signals w ++ [user_registered user])
               (set_heap (heap w ++ [created]) w)).
  assert (Hnew : heap w1 !! user = Some created).
  { cbn [w1 heap set_signals set_heap]. now apply list_lookup_middle. }
  split.
  - intros Hconfirm Hnologin.
    destruct (send_confirmation_instructions_run app request user w1
                (to_dict form) (Some (to_dict form)) Hnew)
      as (mail & Hmail & Hsend).
    exists mail. eexists.
    split; [|split; [|split; [exact Hmail|split; [|split]]]].
    + unfold register. fold form. rewrite Hvalid, Hconfirm, Hnologin.
      cbn [negb orb].
      erewrite bind_Val; [|reflexivity].
      erewrite bind_Val; [|reflexivity].
      erewrite bind_Val; [|erewrite bind_Val; [reflexivity|exact Hsend]].
      erewrite bind_Val; [|reflexivity].
      erewrite bind_Val; [|reflexivity].
      reflexivity.
    + reflexivity.
    + reflexivity.
    + reflexivity.
    + cbn [signals set_logged set_signals set_outbox set_heap w1].
      now rewrite <- app_assoc.
  - intros Hconfirm.
    set (w2 := set_logged (logged w1 ++ [LogRegistered user]) w1).
    assert (Hrun : register app request w =
              (Val (redirect location),
               if active (to_dict form) then login_effect app user true w2
               else w2)).
    { unfold register. fold form. rewrite Hvalid, Hconfirm.
      cbn [negb orb].
      erewrite bind_Val; [|reflexivity].
      erewrite bind_Val; [|reflexivity].
      erewrite bind_Val; [|reflexivity].
      erewrite bind_Val; [|reflexivity].
      rewrite (bind_Val _ _ _ tt
                 (if active (to_dict form) then login_effect app user true w2
                  else w2)); [reflexivity|].
      fold user w1 w2.
      rewrite (bind_Val _ _ w2 (active (to_dict form))
                 (if active (to_dict form) then login_effect app user true w2
                  else w2)); [reflexivity|].
      rewrite (do_login_run app user true w2 (to_dict form)
                 (Some (to_dict form))) by exact Hnew.
      now destruct (active (to_dict form)). }
    eexists. split; [exact Hrun|].
    destruct (active (to_dict form));
      cbn [outbox current_user signals login_effect set_logged set_signals
           set_current_user set_session set_heap w1 w2];
      rewrite <- ?app_assoc; now repeat split.
Qed.

Lemma register_valid_form_witness :
  (exists mail w',
     register (Sample.sample_app true false true) (Sample.sample_request true)
         Sample.sample_world = (Val (redirect (PStr "/home")), w') /\
     outbox w' = (outbox Sample.sample_world ++ [mail])%list /\
     recipients mail = [email Sample.dave] /\
     current_user w' = current_user Sample.sample_world /\
     session w' = session Sample.sample_world /\
     signals w' =
       (signals Sample.sample_world
          ++ [user_registered 3%nat; confirm_instructions_sent 3%nat])%list) /\
  (exists w',
     register (Sample.sample_app false false true) (Sample.sample_request true)
         Sample.sample_world = (Val (redirect (PStr "/home")), w') /\
     outbox w' = outbox Sample.sample_world /\
     current_user w' = Some (3%nat, true) /\
     signals w' =
       (signals Sample.sample_world
          ++ [user_registered 3%nat; identity_changed (Some 3%nat)])%list).
Proof.
  split.
  - apply (proj1 (register_valid_form (Sample.sample_app true false true)
                    (Sample.sample_request true) Sample.sample_world
                    eq_refl)); reflexivity.
  - apply (proj2 (register_valid_form (Sample.sample_app false false true)
                    (Sample.sample_request true) Sample.sample_world
                    eq_refl)); reflexivity.
Defined.

(** A valid registration, confirmation disabled, of a user the
    datastore creates inactive: the login extension refuses, and nobody
    is logged in when [register] returns. *)
Lemma register_does_not_log_in_inactive_user :
  validate_on_submit (RegisterForm_of Sample.inactive_request true) = true /\
  confirm_email (security (Sample.sample_app false false true)) = false /\
  exists w',
    register (Sample.sample_app false false true) Sample.inactive_request
        Sample.sample_world = (Val (redirect (PStr "/home")), w') /\
    current_user w' = None /\
    signals w' = [user_registered 3%nat].
Proof. split; [reflexivity|]. split; [reflexivity|]. eexists. repeat split. Qed.

(** * authenticate *)

Lemma do_flash_run app message category w :
  do_flash app message category w =
    (Val tt,
     if truthy (config_value app "FLASH_MESSAGES" PNone)
     then set_flashes (flashes w ++ [(message, category)]) w
     else w).
Proof.
  unfold do_flash. now destruct (truthy (config_value app "FLASH_MESSAGES" PNone)).
Qed.

Section Totality.

Context {A B : Type}.

Lemma ror_ret (a : A) : returns_or_raises (mret a).
Proof. intros w. left. now exists a, w. Qed.

Lemma ror_raise (e : exn) : returns_or_raises (@raise A e).
Proof. intros w. right. now exists e, w. Qed.

Lemma ror_bind (m : M A) (f : A -> M B) :
  returns_or_raises m -> (forall a, returns_or_raises (f a)) ->
  returns_or_raises (m ≫= f).
Proof.
  intros Hm Hf w. destruct (Hm w) as [(a & w' & H) | (e & w' & H)].
  - rewrite (bind_Val _ _ _ _ _ H). apply Hf.
  - right. exists e, w'. now apply bind_Exc.
Qed.

Lemma ror_getattr user (field : User -> A) :
  returns_or_raises (getattr user field).
Proof.
  intros w. unfold getattr.
  destruct (heap w !! user) as [[live stored|fields]|]; eauto.
Qed.

End Totality.

Lemma ror_modify f : returns_or_raises (modify f).
Proof. intros w. left. now exists tt, (f w). Qed.

Lemma ror_session_pop key : returns_or_raises (session_pop key).
Proof. intros w. left. unfold session_pop. eauto. Qed.

Create HintDb ror.

#[local] Hint Resolve ror_ret ror_raise ror_getattr ror_modify
  ror_session_pop : ror.

Lemma ror_do_login app user remember :
  returns_or_raises (_do_login app user remember).
Proof.
  unfold _do_login, login_user, send_signal, logger_debug.
  repeat (apply ror_bind; [|intros []]); auto with ror.
Qed.

Lemma ror_find_redirect app key : returns_or_raises (find_redirect app key).
Proof.
  unfold find_redirect.
  apply ror_bind; [auto with ror|]. intros popped.
  apply ror_bind.
  - destruct (truthy (get_url app popped)); [auto with ror|].
    destruct (config app !! upper key); auto with ror.
  - intros result. apply ror_bind; auto with ror.
Qed.

(** The [try] block of [authenticate] returns or raises: it has no
    loop. *)
Lemma authentication_attempt_total app request form w :
  (exists response w1,
     authentication_attempt app request form w = (Val response, w1)) \/
  (exists e w1, authentication_attempt app request form w = (Exc e, w1)).
Proof.
  revert w. change (returns_or_raises (authentication_attempt app request form)).
  unfold authentication_attempt. apply ror_bind.
  - intros w. unfold provider_authenticate.
    destruct (auth_provider (security app) form (heap w)); eauto.
  - intros user. apply ror_bind; [apply ror_do_login|]. intros [|].
    + apply ror_bind; [|auto with ror].
      unfold get_post_login_redirect.
      destruct (truthy _); [auto with ror|].
      destruct (truthy _); [auto with ror|apply ror_find_redirect].
    + auto with ror.
Qed.

(** The run of [authenticate], by the outcome of its [try] block. *)
Lemma authenticate_run app request w :
  match authentication_attempt app request (LoginForm_of request) w with
  | (Val response, w1) => authenticate app request w = (Val response, w1)
  | (Exc e, w1) =>
      authenticate app request w =
        if is_Exception e
        then
          (Val (redirect (py_or (referrer request) (login_view (security app)))),
           set_logged (logged w1 ++ [LogUnsuccessful (failure_message e)])
             (if truthy (config_value app "FLASH_MESSAGES" PNone)
              then set_flashes (flashes w1 ++ [(failure_message e, "error")]) w1
              else w1))
        else (Exc e, w1)
  | (Fuel, _) => False
  end.
Proof.
  destruct (authentication_attempt_total app request (LoginForm_of request) w)
    as [(response & w1 & H) | (e & w1 & H)]; rewrite H.
  - unfold authenticate.
    erewrite bind_Val;
      [|erewrite try_Val; [reflexivity|erewrite bind_Val; [reflexivity|exact H]]].
    reflexivity.
  - unfold authenticate. destruct (is_Exception e) eqn:Hclass.
    + erewrite bind_Val;
        [|rewrite (try_Exc _ _ w e w1); [|now apply bind_Exc];
          rewrite Hclass; reflexivity].
      cbn beta iota.
      erewrite bind_Val; [|apply do_flash_run].
      now destruct (truthy (config_value app "FLASH_MESSAGES" PNone)).
    + apply bind_Exc.
      rewrite (try_Exc _ _ w e w1); [|now apply bind_Exc].
      now rewrite Hclass.
Qed.

(** C9, as the code has it.  No instance of [Exception] raised during
    the attempt leaves [authenticate]: the message is the one of the
    [BadCredentialsError] or, for any other [Exception], the generic
    one; it is logged, it is flashed when (and only when) the
    [FLASH_MESSAGES] setting is true, and the response is a redirect to
    the referrer or the login view.  An exception that is not an
    [Exception] is not caught: it leaves the view as it was raised, and
    nothing else ever leaves the view as an exception. *)
Theorem authenticate_never_raises app request w :
  (forall e w1,
     authentication_attempt app request (LoginForm_of request) w
       = (Exc e, w1) ->
     is_Exception e = true ->
     let msg := match e with
                | BadCredentialsError m => m
                | _ => "Unknown authentication error"
                end in
     exists w',
       authenticate app request w =
         (Val (redirect (py_or (referrer request) (login_view (security app)))),
          w') /\
       flashes w' =
         (flashes w1 ++
            if truthy (config_value app "FLASH_MESSAGES" PNone)
            then [(msg, "error")] else [])%list /\
       logged w' = (logged w1 ++ [LogUnsuccessful msg])%list) /\
  (forall e w1,
     authentication_attempt app request (LoginForm_of request) w
       = (Exc e, w1) ->
     is_Exception e = false ->
     authenticate app request w = (Exc e, w1)) /\
  (forall e w',
     authenticate app request w = (Exc e, w') ->
     is_Exception e = false /\
     authentication_attempt app request (LoginForm_of request) w
       = (Exc e, w')) /\
  (exists outcome w',
     authenticate app request w = (outcome, w') /\ outcome <> Fuel).
Proof.
  pose proof (authenticate_run app request w) as Hrun.
  destruct (authentication_attempt app request (LoginForm_of request) w)
    as [[response|e|] w1]; [| |contradiction].
  - split; [discriminate|]. split; [discriminate|]. split.
    + intros e w'. rewrite Hrun. discriminate.
    + exists (Val response), w1. split; [exact Hrun|discriminate].
  - split; [|split; [|split]].
    + intros e' w1' [= <- <-] Hclass. cbn zeta.
      rewrite Hclass in Hrun. eexists. split; [exact Hrun|].
      replace (failure_message e) with
        (match e with
         | BadCredentialsError m => m
         | _ => "Unknown authentication error"
         end) by now destruct e.
      destruct (truthy (config_value app "FLASH_MESSAGES" PNone));
        cbn [flashes logged set_logged set_flashes];
        now rewrite ?app_nil_r.
    + intros e' w1' [= <- <-] Hclass. now rewrite Hclass in Hrun.
    + intros e' w'. rewrite Hrun.
      destruct (is_Exception e) eqn:Hclass; [discriminate|].
      intros [= <- <-]. now split.
    + destruct (is_Exception e); eexists _, _; (split; [exact Hrun|]);
        discriminate.
Qed.

Lemma authenticate_never_raises_witness :
  (exists w',
     authenticate (Sample.sample_app true false true)
         (Sample.sample_request true) Sample.sample_world
       = (Val (redirect (PStr "/login")), w') /\
     flashes w' = [("Invalid password", "error")] /\
     logged w' = [LogUnsuccessful "Invalid password"]) /\
  authenticate Sample.interrupted_app (Sample.sample_request true)
      Sample.sample_world
    = (Exc KeyboardInterrupt, Sample.sample_world).
Proof.
  split.
  - apply (proj1 (authenticate_never_raises (Sample.sample_app true false true)
                    (Sample.sample_request true) Sample.sample_world)
             (BadCredentialsError "Invalid password") Sample.sample_world);
      reflexivity.
  - apply (proj1 (proj2 (authenticate_never_raises Sample.interrupted_app
                           (Sample.sample_request true) Sample.sample_world))
             KeyboardInterrupt Sample.sample_world);
      reflexivity.
Defined.

(** With flashing switched off by configuration a rejected login
    flashes nothing, whatever the exception. *)
Lemma authenticate_flash_is_gated :
  authentication_attempt (Sample.sample_app true false false)
      (Sample.sample_request true) (mkLoginForm "alice@site" "pw" true)
      Sample.sample_world
    = (Exc (BadCredentialsError "Invalid password"), Sample.sample_world) /\
  flashes (snd (authenticate (Sample.sample_app true false false)
                  (Sample.sample_request true) Sample.sample_world)) = [].
Proof. split; reflexivity. Qed.

(** * Further properties of utils.py *)

Lemma b64_char_alphabet n :
  (n < 64)%N -> In (b64_char n) (list_ascii_of_string b64_alphabet).
Proof.
  intros Hn. unfold b64_char.
  assert (Hm : (N.to_nat n < 64)%nat) by lia.
  revert Hm. generalize (N.to_nat n) as m. intros m Hm.
  do 64 (destruct m as [|m];
         [cbn; repeat (first [left; reflexivity | right])|]).
  lia.
Qed.

Lemma sextet_alphabet n k :
  In (sextet n k) (list_ascii_of_string b64_alphabet).
Proof.
  unfold sextet. apply b64_char_alphabet.
  change 63%N with (N.ones 6). rewrite N.land_ones.
  now apply N.mod_upper_bound.
Qed.

(** Whole groups of three bytes encode without padding. *)
Lemma b64_unpadded m : forall bs,
  length bs = (3 * m)%nat ->
  String.length (urlsafe_b64encode bs) = (4 * m)%nat /\
  Forall (fun c => In c (list_ascii_of_string b64_alphabet))
         (list_ascii_of_string (urlsafe_b64encode bs)).
Proof.
  induction m as [|m IH]; intros bs Hlen.
  - destruct bs; [|discriminate]. split; [reflexivity|constructor].
  - destruct bs as [|a [|b [|c rest]]]; try (cbn in Hlen; lia).
    destruct (IH rest) as (Hl & Hall); [cbn in Hlen; lia|].
    cbn [urlsafe_b64encode String.length list_ascii_of_string].
    split; [rewrite Hl; lia|].
    repeat (constructor; [apply sextet_alphabet|]). exact Hall.
Qed.

(** X1.  [generate_token] always returns: a token of forty characters,
    every one of them in the URL-safe alphabet (thirty bytes need no
    padding), at the cost of exactly thirty bytes of entropy and of
    nothing else. *)
Theorem generate_token_shape app w :
  exists token,
    generate_token app w = (Val token, set_drawn (drawn w + 30) w) /\
    String.length token = 40%nat /\
    Forall (fun c => In c (list_ascii_of_string b64_alphabet))
           (list_ascii_of_string token).
Proof.
  exists (candidate app (drawn w) 0). split; [apply generate_token_run|].
  apply (b64_unpadded 10). now rewrite length_map, length_seq.
Qed.

Lemma upper_lower_ascii c : upper_ascii (lower_ascii c) = upper_ascii c.
Proof. destruct c as [[] [] [] [] [] [] [] []]; reflexivity. Qed.

Lemma upper_upper_ascii c : upper_ascii (upper_ascii c) = upper_ascii c.
Proof. destruct c as [[] [] [] [] [] [] [] []]; reflexivity. Qed.

Lemma upper_lower key : upper (lower key) = upper key.
Proof.
  induction key as [|c key IH]; [reflexivity|].
  cbn [upper lower str_map]. f_equal; [apply upper_lower_ascii|exact IH].
Qed.

Lemma upper_upper key : upper (upper key) = upper key.
Proof.
  induction key as [|c key IH]; [reflexivity|].
  cbn [upper str_map]. f_equal; [apply upper_upper_ascii|exact IH].
Qed.

(** X2.  [config_value] does not see the case of the key it is asked
    for: the lower-case and the upper-case spelling read the same
    [SECURITY_]-prefixed setting. *)
Theorem config_value_ignores_case app key default :
  config_value app (lower key) default = config_value app key default /\
  config_value app (upper key) default = config_value app key default.
Proof.
  unfold config_value. now rewrite upper_lower, upper_upper.
Qed.

Lemma find_redirect_run app key w :
  exists outcome,
    find_redirect app key w =
      (outcome, set_session (delete (lower key) (session w)) w) /\
    match outcome with
    | Val location => truthy location = true
    | Exc e => e = KeyError (upper key) /\ config app !! upper key = None
    | Fuel => False
    end.
Proof.
  unfold find_redirect, session_pop, mbind, M_bind, mret, M_ret, raise.
  cbn beta iota.
  destruct (truthy (get_url app (py_get (session w) (lower key)))) eqn:Hs.
  - eexists. split; [cbn [session set_session]; now rewrite delete_delete_eq|].
    exact Hs.
  - destruct (config app !! upper key) as [v|] eqn:Hc.
    + eexists.
      split; [cbn [session set_session]; now rewrite delete_delete_eq|].
      unfold py_or at 1.
      now destruct (truthy (get_url app (py_or v PNone))) eqn:Hv.
    + eexists. split; [reflexivity|]. now split.
Qed.

(** X3.  [find_redirect] uses up the session entry it looks at, whether
    it returns or raises; what it returns is never an empty location
    (the root is the last resort); and the only exception it can raise
    is the [KeyError] of a setting that is not configured. *)
Theorem find_redirect_consumes app key w :
  exists outcome,
    find_redirect app key w =
      (outcome, set_session (delete (lower key) (session w)) w) /\
    match outcome with
    | Val location => truthy location = true
    | Exc e => e = KeyError (upper key) /\ config app !! upper key = None
    | Fuel => False
    end.
Proof. apply find_redirect_run. Qed.

(** X4.  [get_post_login_redirect] prefers a usable [next] of the query
    string, and then leaves the session alone; and whatever it returns
    is a non-empty location. *)
Theorem post_login_redirect_precedence app request w :
  (truthy (get_url app (py_get (args request) "next")) = true ->
   get_post_login_redirect app request w =
     (Val (get_url app (py_get (args request) "next")), w)) /\
  (forall location w',
     get_post_login_redirect app request w = (Val location, w') ->
     truthy location = true).
Proof.
  unfold get_post_login_redirect. split.
  - now intros ->.
  - intros location w'.
    destruct (truthy (get_url app (py_get (args request) "next"))) eqn:Ha.
    { now intros [= <- <-]. }
    destruct (truthy (get_url app (py_get (form request) "next"))) eqn:Hf.
    { now intros [= <- <-]. }
    destruct (find_redirect_run app "SECURITY_POST_LOGIN_VIEW" w)
      as (outcome & -> & Hout).
    now intros [= -> <-].
Qed.

Lemma post_login_redirect_precedence_witness :
  get_post_login_redirect (Sample.sample_app true false true)
      Sample.next_request Sample.crowded_world
    = (Val (PStr "/profile"), Sample.crowded_world).
Proof.
  apply (proj1 (post_login_redirect_precedence
                  (Sample.sample_app true false true) Sample.next_request
                  Sample.crowded_world)).
  reflexivity.
Defined.

(** * Further properties of views.py *)



Lemma post_login_redirect_truthy app request w location w' :
  get_post_login_redirect app request w = (Val location, w') ->
  truthy location = true.
Proof.
  unfold get_post_login_redirect.
  destruct (truthy (get_url app (py_get (args request) "next"))) eqn:Ha.
  { now intros [= <- <-]. }
  destruct (truthy (get_url app (py_get (form request) "next"))) eqn:Hf.
  { now intros [= <- <-]. }
  destruct (find_redirect_run app "SECURITY_POST_LOGIN_VIEW" w)
    as (outcome & -> & Hout).
  now intros [= -> <-].
Qed.

Lemma post_login_redirect_frame app request w outcome w' :
  get_post_login_redirect app request w = (outcome, w') ->
  w' = w \/
  w' = set_session (delete "security_post_login_view" (session w)) w.
Proof.
  unfold get_post_login_redirect.
  destruct (truthy (get_url app (py_get (args request) "next")));
    [intros [= <- <-]; now left|].
  destruct (truthy (get_url app (py_get (form request) "next")));
    [intros [= <- <-]; now left|].
  destruct (find_redirect_run app "SECURITY_POST_LOGIN_VIEW" w)
    as (o & -> & _).
  intros [= <- <-]. now right.
Qed.

Lemma authentication_attempt_run app request form w user live stored :
  auth_provider (security app) form (heap w) = inr user ->
  heap w !! user = Some (ModelObj live stored) ->
  authentication_attempt app request form w =
    if active live
    then match get_post_login_redirect app request
                 (login_effect app user (remember_data form) w) with
         | (Val location, w2) => (Val (redirect location), w2)
         | (Exc e, w2) => (Exc e, w2)
         | (Fuel, w2) => (Fuel, w2)
         end
    else (Exc (BadCredentialsError "Inactive user"), w).
Proof.
  intros Hprovider Hobj. unfold authentication_attempt.
  erewrite bind_Val; [|unfold provider_authenticate; now rewrite Hprovider].
  rewrite (bind_Val _ _ w (active live)
             (if active live then login_effect app user (remember_data form) w
              else w)).
  2: { rewrite (do_login_run _ _ _ _ _ _ Hobj). now destruct (active live). }
  destruct (active live); [|reflexivity].
  unfold mbind, M_bind.
  now destruct (get_post_login_redirect app request
                  (login_effect app user (remember_data form) w)) as [[?|?|] ?].
Qed.

(** X6.  When the provider vouches for an active user and a post-login
    location can be found, [authenticate] opens the session for that
    user with the form's [remember] flag, flashes nothing, and redirects
    to that (non-empty) location. *)
Theorem authenticate_logs_in app request w user live stored location w2 :
  let login := LoginForm_of request in
  auth_provider (security app) login (heap w) = inr user ->
  heap w !! user = Some (ModelObj live stored) ->
  active live = true ->
  get_post_login_redirect app request
      (login_effect app user (remember_data login) w) = (Val location, w2) ->
  authenticate app request w = (Val (redirect location), w2) /\
  truthy location = true /\
  current_user w2 = Some (user, remember_data login) /\
  flashes w2 = flashes w /\
  signals w2 = (signals w ++ [identity_changed (Some user)])%list.
Proof.
  intros login Hprovider Hobj Hactive Hredirect.
  pose proof (authenticate_run app request w) as Hrun.
  rewrite (authentication_attempt_run _ _ _ _ _ _ _ Hprovider Hobj) in Hrun.
  fold login in Hrun. rewrite Hactive, Hredirect in Hrun.
  split; [exact Hrun|]. split.
  - eapply post_login_redirect_truthy, Hredirect.
  - destruct (post_login_redirect_frame _ _ _ _ _ Hredirect) as [-> | ->];
      now repeat split.
Qed.

Lemma authenticate_logs_in_witness :
  authenticate (Sample.accepting_app 1%nat true) Sample.next_request
      Sample.crowded_world
    = (Val (redirect (PStr "/profile")),
       login_effect (Sample.accepting_app 1%nat true) 1%nat true
       Sample.crowded_world) /\
  truthy (PStr "/profile") = true /\
  current_user (login_effect (Sample.accepting_app 1%nat true) 1%nat true
       Sample.crowded_world)
    = Some (1%nat, true) /\
  flashes (login_effect (Sample.accepting_app 1%nat true) 1%nat true
       Sample.crowded_world)
    = flashes Sample.crowded_world /\
  signals (login_effect (Sample.accepting_app 1%nat true) 1%nat true
       Sample.crowded_world)
    = (signals Sample.crowded_world ++ [identity_changed (Some 1%nat)])%list.
Proof.
  apply (authenticate_logs_in (Sample.accepting_app 1%nat true)
           Sample.next_request Sample.crowded_world 1%nat Sample.bob
           (Some Sample.bob)); reflexivity.
Defined.

(** X7.  A failure after the login went through does not undo it: when
    the provider vouches for an active user but the post-login location
    cannot be resolved, [authenticate] reports "Unknown authentication
    error" and redirects back, yet the user stays logged in. *)
Theorem authenticate_error_after_login app request w user live stored e w2 :
  let login := LoginForm_of request in
  auth_provider (security app) login (heap w) = inr user ->
  heap w !! user = Some (ModelObj live stored) ->
  active live = true ->
  get_post_login_redirect app request
      (login_effect app user (remember_data login) w) = (Exc e, w2) ->
  exists w',
    authenticate app request w =
      (Val (redirect (py_or (referrer request) (login_view (security app)))),
       w') /\
    current_user w' = Some (user, remember_data login) /\
    logged w' =
      (logged w ++ [LogLoggedIn user;
                    LogUnsuccessful "Unknown authentication error"])%list.
Proof.
  intros login Hprovider Hobj Hactive Hredirect.
  pose proof (authenticate_run app request w) as Hrun.
  rewrite (authentication_attempt_run _ _ _ _ _ _ _ Hprovider Hobj) in Hrun.
  fold login in Hrun. rewrite Hactive, Hredirect in Hrun.
  assert (He : e = KeyError (upper "SECURITY_POST_LOGIN_VIEW")).
  { revert Hredirect. unfold get_post_login_redirect.
    destruct (truthy (get_url app (py_get (args request) "next")));
      [discriminate|].
    destruct (truthy (get_url app (py_get (form request) "next")));
      [discriminate|].
    destruct (find_redirect_run app "SECURITY_POST_LOGIN_VIEW"
                (login_effect app user (remember_data login) w))
      as (o & -> & Ho).
    intros [= -> _]. now destruct Ho as [-> _]. }
  rewrite He in Hrun. cbn [is_Exception failure_message] in Hrun.
  eexists. split; [exact Hrun|].
  destruct (post_login_redirect_frame _ _ _ _ _ Hredirect) as [-> | ->];
    destruct (truthy (config_value app "FLASH_MESSAGES" PNone));
    cbn [current_user logged set_logged set_flashes set_session set_signals
         set_current_user login_effect];
    now rewrite <- app_assoc.
Qed.

Lemma authenticate_error_after_login_witness :
  exists w',
    authenticate (Sample.accepting_app 1%nat false)
        (Sample.sample_request true) Sample.crowded_world =
      (Val (redirect (PStr "/login")), w') /\
    current_user w' = Some (1%nat, true) /\
    logged w' =
      (logged Sample.crowded_world
         ++ [LogLoggedIn 1%nat;
             LogUnsuccessful "Unknown authentication error"])%list.
Proof.
  apply (authenticate_error_after_login (Sample.accepting_app 1%nat false)
           (Sample.sample_request true) Sample.crowded_world 1%nat Sample.bob
           (Some Sample.bob) (KeyError "SECURITY_POST_LOGIN_VIEW")
           (set_session
              (delete "security_post_login_view"
                 (session (login_effect (Sample.accepting_app 1%nat false)
                             1%nat true Sample.crowded_world)))
              (login_effect (Sample.accepting_app 1%nat false) 1%nat true
                 Sample.crowded_world)));
    reflexivity.
Defined.

(** X8.  When the provider vouches for a user who is not active,
    [authenticate] reports "Inactive user", redirects back and opens no
    session: besides the log line and the gated flash nothing changes. *)
Theorem authenticate_rejects_inactive app request w user live stored :
  auth_provider (security app) (LoginForm_of request) (heap w) = inr user ->
  heap w !! user = Some (ModelObj live stored) ->
  active live = false ->
  authenticate app request w =
    (Val (redirect (py_or (referrer request) (login_view (security app)))),
     set_logged (logged w ++ [LogUnsuccessful "Inactive user"])
       (if truthy (config_value app "FLASH_MESSAGES" PNone)
        then set_flashes (flashes w ++ [("Inactive user", "error")]) w
        else w)).
Proof.
  intros Hprovider Hobj Hactive.
  pose proof (authenticate_run app request w) as Hrun.
  rewrite (authentication_attempt_run _ _ _ _ _ _ _ Hprovider Hobj) in Hrun.
  now rewrite Hactive in Hrun.
Qed.

Lemma authenticate_rejects_inactive_witness :
  authenticate (Sample.accepting_app 3%nat true) (Sample.sample_request true)
      Sample.crowded_world =
    (Val (redirect (PStr "/login")),
     set_logged [LogUnsuccessful "Inactive user"]
       (set_flashes [("Inactive user", "error")] Sample.crowded_world)).
Proof.
  apply (authenticate_rejects_inactive (Sample.accepting_app 3%nat true)
           (Sample.sample_request true) Sample.crowded_world 3%nat
           Sample.erin (Some Sample.erin)); reflexivity.
Defined.


(** X10.  With confirmation required and login without confirmation
    allowed, a valid registration both sends exactly one confirmation
    mail and logs the new (active) user in, in that order. *)
Theorem register_sends_and_logs_in app request w :
  let submitted := RegisterForm_of request (negb (testing app)) in
  let user := length (heap w) in
  validate_on_submit submitted = true ->
  confirm_email (security app) = true ->
  login_without_confirmation (security app) = true ->
  active (to_dict submitted) = true ->
  exists mail w',
    register app request w =
      (Val (redirect (py_or (post_register_view (security app))
                            (post_login_view (security app)))), w') /\
    outbox w' = (outbox w ++ [mail])%list /\
    recipients mail = [email (to_dict submitted)] /\
    current_user w' = Some (user, true) /\
    signals w' =
      (signals w ++ [user_registered user; confirm_instructions_sent user;
                     identity_changed (Some user)])%list.
Proof.
  intros submitted user Hvalid Hconfirm Hlogin Hactive.
  set (created := ModelObj (to_dict submitted) (Some (to_dict submitted))).
  set (w1 := set_signals (signals w ++ [user_registered user])
               (set_heap (heap w ++ [created]) w)).
  assert (Hnew : heap w1 !! user = Some created).
  { cbn [w1 heap set_signals set_heap]. now apply list_lookup_middle. }
  destruct (send_confirmation_instructions_run app request user w1
              (to_dict submitted) (Some (to_dict submitted)) Hnew)
    as (mail & Hmail & Hsend).
  exists mail. eexists. split; [|split; [|split; [exact Hmail|split]]].
  - unfold register. fold submitted. rewrite Hvalid, Hconfirm, Hlogin.
    cbn [negb orb].
    erewrite bind_Val; [|reflexivity].
    erewrite bind_Val; [|reflexivity].
    erewrite bind_Val; [|erewrite bind_Val; [reflexivity|exact Hsend]].
    erewrite bind_Val; [|reflexivity].
    erewrite bind_Val;
      [|erewrite bind_Val; [reflexivity|];
        rewrite (do_login_run app user true _ (to_dict submitted)
                   (Some (to_dict submitted))) by exact Hnew;
        rewrite Hactive; reflexivity].
    reflexivity.
  - reflexivity.
  - reflexivity.
  - cbn [signals set_logged set_signals set_outbox set_heap set_session
         set_current_user login_effect w1].
    now rewrite <- !app_assoc.
Qed.

Lemma register_sends_and_logs_in_witness :
  exists mail w',
    register (Sample.accepting_app 0%nat true) (Sample.sample_request true)
        Sample.sample_world = (Val (redirect (PStr "/home")), w') /\
    outbox w' = (outbox Sample.sample_world ++ [mail])%list /\
    recipients mail = [email Sample.dave] /\
    current_user w' = Some (3%nat, true) /\
    signals w' =
      (signals Sample.sample_world
         ++ [user_registered 3%nat; confirm_instructions_sent 3%nat;
             identity_changed (Some 3%nat)])%list.
Proof.
  apply (register_sends_and_logs_in (Sample.accepting_app 0%nat true)
           (Sample.sample_request true) Sample.sample_world);
    reflexivity.
Defined.

(** * Further properties of confirmable.py and of the confirm view *)

Lemma reset_confirmation_token_run app request fuel user w live stored k :
  heap w !! user = Some (ModelObj live stored) ->
  (k < fuel)%nat ->
  token_unknown (candidate app (drawn w) k) (heap w) ->
  exists k0 mail,
    token_unknown (candidate app (drawn w) k0) (heap w) /\
    recipients mail = [email live] /\
    let reissued :=
      issue (candidate app (drawn w) k0) (clock app (ticks w)) live in
    reset_confirmation_token app request fuel user w =
      (Val tt,
       set_signals (signals w ++ [confirm_instructions_sent user])
         (set_outbox (outbox w ++ [mail])
            (set_heap (<[user := ModelObj reissued (Some reissued)]> (heap w))
               (set_ticks (S (ticks w))
                  (set_drawn (drawn w + 30 * S k0) w))))).
Proof.
  intros Hobj Hk Hfresh.
  destruct (generate_confirmation_token_run app fuel user w _ k Hobj Hk Hfresh)
    as (k0 & _ & Hk0 & Hgen).
  set (reissued := issue (candidate app (drawn w) k0) (clock app (ticks w)) live).
  destruct (send_confirmation_instructions_run app request user
              (set_heap (<[user := ModelObj reissued (Some reissued)]> (heap w))
                 (set_ticks (S (ticks w))
                    (set_drawn (drawn w + 30 * S k0) w)))
              reissued (Some reissued)) as (mail & Hmail & Hsend).
  { cbn [heap set_heap]. now apply (lookup_updated _ _ (ModelObj live stored)). }
  exists k0, mail. split; [exact Hk0|]. split; [exact Hmail|].
  cbn zeta. fold reissued. unfold reset_confirmation_token.
  erewrite bind_Val; [|exact Hgen].
  erewrite bind_Val;
    [|apply (save_model_obj user _ reissued stored); cbn [heap set_heap];
      now apply (lookup_updated _ _ (ModelObj live stored))].
  cbn [heap set_heap]. rewrite list_insert_insert_eq.
  erewrite bind_Val; [|exact Hsend]. reflexivity.
Qed.

(** What the expiry predicate can raise. *)
Lemma expired_raises app user w e w' :
  confirmation_token_is_expired app user w = (Exc e, w') ->
  forall m, e <> ConfirmationError m.
Proof.
  unfold confirmation_token_is_expired, should_confirm_email.
  destruct (confirm_email (security app)); [|discriminate].
  unfold mbind, M_bind, utcnow, datetime_sub, getattr, raise, mret, M_ret.
  destruct (is_datetime _); [|intros [= <- _] m; discriminate].
  cbn [heap set_ticks].
  destruct (heap w !! user) as [[live stored|fields]|];
    try (intros [= <- _] m; discriminate).
  destruct (confirmation_sent_at live);
    [discriminate|intros [= <- _] m; discriminate].
Qed.

(** A [ConfirmationError] leaves [confirm_by_token] before anything was
    read from the clock or written to the user. *)
Lemma confirmation_error_is_pure app token w m w1 :
  confirm_by_token app token w = (Exc (ConfirmationError m), w1) -> w1 = w.
Proof.
  assert (Hbad : find_user_by_confirmation_token token w
                   = (Exc (ConfirmationError "Confirmation token required"), w)
                 -> confirm_by_token app token w
                   = (Exc (ConfirmationError m), w1) -> w1 = w).
  { intros Hraise. unfold confirm_by_token.
    rewrite (bind_Exc _ _ w (ConfirmationError "Confirmation token required") w);
      [now intros [= _ <-]|].
    now rewrite (try_Exc _ _ w
                   (ConfirmationError "Confirmation token required") w). }
  destruct token as [t|]; [|now apply Hbad].
  destruct (truthy t) eqn:Htruthy.
  2: { apply Hbad. unfold find_user_by_confirmation_token.
       now rewrite Htruthy. }
  clear Hbad. unfold confirm_by_token.
  assert (Hlookup : find_user_by_confirmation_token (Some t) w = find_user t w).
  { unfold find_user_by_confirmation_token. now rewrite Htruthy. }
  destruct (find_user_cases t w) as [[user Hfound] | [Hnone _]].
  2: { rewrite (bind_Exc _ _ w (ConfirmationError "Invalid confirmation token") w);
         [now intros [= _ <-]|].
       rewrite (try_Exc _ _ w UserNotFoundError w); [reflexivity|].
       now rewrite Hlookup. }
  erewrite bind_Val;
    [|erewrite try_Val; [reflexivity|]; rewrite Hlookup; exact Hfound].
  unfold getattr at 1, mbind at 1, M_bind at 1.
  destruct (heap w !! user) as [[live stored|fields]|] eqn:Hobj;
    try discriminate.
  destruct (confirmed_at live); cbn [truthy truthy_timestamp].
  { now intros [= _ <-]. }
  unfold mbind at 1, M_bind at 1.
  destruct (confirmation_token_is_expired app user w) as [[[|]|e|] w'] eqn:Hexp;
    try discriminate.
  - assert (Hheap : heap w' = heap w)
      by (destruct (expired_frame _ _ _ _ _ Hexp) as [-> | ->]; reflexivity).
    rewrite <- Hheap in Hobj.
    erewrite bind_Val; [|reflexivity].
    erewrite bind_Val; [|now apply (setattr_obj _ user _ live stored)].
    erewrite bind_Val;
      [|eapply (save_model_obj user); cbn [heap set_heap];
        now apply (lookup_updated _ _ (ModelObj live stored))].
    discriminate.
  - intros [= -> _]. now destruct (expired_raises _ _ _ _ _ Hexp m).
Qed.

Lemma confirm_rejects_run app request fuel w m w1 :
  confirm_by_token app (args request !! "confirmation_token") w
    = (Exc (ConfirmationError m), w1) ->
  confirm app request fuel w =
    (Val (redirect (PStr "/")),
     if truthy (config_value app "FLASH_MESSAGES" PNone)
     then set_flashes (flashes w ++ [(m, "error")]) w
     else w).
Proof.
  intros Hraise.
  assert (w1 = w) as -> by exact (confirmation_error_is_pure _ _ _ _ _ Hraise).
  unfold confirm.
  erewrite bind_Val;
    [|rewrite (try_Exc _ _ w (ConfirmationError m) w);
        [|now apply bind_Exc];
      cbn beta iota; erewrite bind_Val; [reflexivity|apply do_flash_run]].
  now destruct (truthy (config_value app "FLASH_MESSAGES" PNone)).
Qed.

(** X11.  Whenever [confirm_by_token] refuses the token of the request
    with a [ConfirmationError] (missing, unknown, already used for a
    confirmed account), the [confirm] view sends the visitor to the
    root and its only effect is the gated flash of the error's message:
    no mail, no new token, no change to any user. *)
Theorem confirm_view_rejects app request fuel w m w1 :
  confirm_by_token app (args request !! "confirmation_token") w
    = (Exc (ConfirmationError m), w1) ->
  confirm app request fuel w =
    (Val (redirect (PStr "/")),
     if truthy (config_value app "FLASH_MESSAGES" PNone)
     then set_flashes (flashes w ++ [(m, "error")]) w
     else w).
Proof. apply confirm_rejects_run. Qed.

Lemma confirm_view_rejects_witness :
  confirm (Sample.sample_app true false true)
      (Sample.confirm_request (Sample.token_of Byte.x03)) 5
      Sample.sample_world =
    (Val (redirect (PStr "/")),
     set_flashes [("Account has already been confirmed", "error")]
       Sample.sample_world).
Proof.
  apply (confirm_view_rejects (Sample.sample_app true false true)
           (Sample.confirm_request (Sample.token_of Byte.x03)) 5
           Sample.sample_world "Account has already been confirmed"
           Sample.sample_world).
  reflexivity.
Defined.

(** The expiry predicate leaves everything but the clock alone. *)
Lemma expired_frame_rest app user w r w1 :
  confirmation_token_is_expired app user w = (r, w1) ->
  heap w1 = heap w /\ drawn w1 = drawn w /\ outbox w1 = outbox w /\
  signals w1 = signals w /\ flashes w1 = flashes w /\ logged w1 = logged w /\
  session w1 = session w /\ current_user w1 = current_user w.
Proof.
  intros Hexp.
  destruct (expired_frame _ _ _ _ _ Hexp) as [-> | ->]; now repeat split.
Qed.

(** X12.  On a token that finds an unconfirmed user and has not expired,
    the [confirm] view confirms the user (object and row), sends the one
    [user_confirmed] notification, logs the confirmation, flashes the
    success message when flashing is configured, and redirects to the
    post-confirm view or, failing that, the post-login view.  It sends
    no mail and does not log the user in. *)
Theorem confirm_view_confirms app request fuel t w user live stored w1 :
  args request !! "confirmation_token" = Some t ->
  truthy t = true ->
  find_user t w = (Val user, w) ->
  heap w !! user = Some (ModelObj live stored) ->
  confirmed_at live = None ->
  confirmation_token_is_expired app user w = (Val false, w1) ->
  exists now w',
    confirm app request fuel w =
      (Val (redirect (py_or (post_confirm_view (security app))
                            (post_login_view (security app)))), w') /\
    heap w' =
      <[user := ModelObj (with_confirmed_at (Some now) live)
                         (Some (with_confirmed_at (Some now) live))]> (heap w) /\
    signals w' = (signals w ++ [user_confirmed user])%list /\
    logged w' = (logged w ++ [LogConfirmed user])%list /\
    flashes w' =
      (if truthy (config_value app "FLASH_MESSAGES" PNone)
       then flashes w
              ++ [("Your email has been confirmed. You may now log in.",
                   "success")]
       else flashes w)%list /\
    outbox w' = outbox w /\
    current_user w' = current_user w /\
    session w' = session w.
Proof.
  intros Hargs Htruthy Hfind Hobj Hnone Hexp.
  destruct (confirm_by_token_run app t w user live stored w1)
    as (Hrun & _); try assumption.
  destruct (expired_frame_rest _ _ _ _ _ Hexp)
    as (Hheap & _ & Hout & Hsig & Hfl & Hlog & Hses & Hcur).
  exists (clock app (ticks w1)). eexists. split.
  - unfold confirm. rewrite Hargs.
    erewrite bind_Val;
      [|erewrite try_Val; [reflexivity|];
        erewrite bind_Val; [reflexivity|exact Hrun]].
    cbn beta iota.
    erewrite bind_Val; [|reflexivity].
    erewrite bind_Val; [|apply do_flash_run].
    reflexivity.
  - destruct (truthy (config_value app "FLASH_MESSAGES" PNone));
      cbn [heap signals logged flashes outbox current_user session
           set_flashes set_logged set_signals set_heap set_ticks];
      rewrite Hheap, Hout, Hsig, Hfl, Hlog, Hses, Hcur; now repeat split.
Qed.

Lemma confirm_view_confirms_witness :
  exists now w',
    confirm (Sample.sample_app true false true)
        (Sample.confirm_request (Sample.token_of Byte.x02)) 5
        Sample.sample_world =
      (Val (redirect (PStr "/home")), w') /\
    heap w' =
      <[1%nat := ModelObj (with_confirmed_at (Some now) Sample.bob)
                   (Some (with_confirmed_at (Some now) Sample.bob))]>
        (heap Sample.sample_world) /\
    signals w' = (signals Sample.sample_world ++ [user_confirmed 1%nat])%list /\
    logged w' = (logged Sample.sample_world ++ [LogConfirmed 1%nat])%list /\
    flashes w' =
      (flashes Sample.sample_world
         ++ [("Your email has been confirmed. You may now log in.",
              "success")])%list /\
    outbox w' = outbox Sample.sample_world /\
    current_user w' = current_user Sample.sample_world /\
    session w' = session Sample.sample_world.
Proof.
  apply (confirm_view_confirms (Sample.sample_app true false true)
           (Sample.confirm_request (Sample.token_of Byte.x02)) 5
           (Sample.token_of Byte.x02) Sample.sample_world 1%nat Sample.bob
           (Some Sample.bob) (set_ticks 1 Sample.sample_world));
    reflexivity.
Defined.

(** X13.  On a token that finds an unconfirmed user and has expired, the
    [confirm] view does not confirm: it puts a token unknown to the
    datastore on the user and the row, mails the instructions to the
    user's address, sends [confirm_instructions_sent], flashes (when
    flashing is configured) a message naming the confirmation window and
    that address, and redirects to the root.  Nothing is logged and
    nobody is logged in. *)
Theorem confirm_view_expired_token app request fuel t w user live stored w1 k :
  args request !! "confirmation_token" = Some t ->
  truthy t = true ->
  find_user t w = (Val user, w) ->
  heap w !! user = Some (ModelObj live stored) ->
  confirmed_at live = None ->
  confirmation_token_is_expired app user w = (Val true, w1) ->
  (k < fuel)%nat ->
  token_unknown (candidate app (drawn w) k) (heap w) ->
  exists token now mail w',
    confirm app request fuel w = (Val (redirect (PStr "/")), w') /\
    token_unknown token (heap w) /\
    heap w' =
      <[user := ModelObj (issue token now live) (Some (issue token now live))]>
        (heap w) /\
    confirmed_at (issue token now live) = None /\
    outbox w' = (outbox w ++ [mail])%list /\
    recipients mail = [email live] /\
    signals w' = (signals w ++ [confirm_instructions_sent user])%list /\
    flashes w' =
      (if truthy (config_value app "FLASH_MESSAGES" PNone)
       then flashes w
              ++ [(("You did not confirm your email within "
                      ++ confirm_email_within_text (security app)
                      ++ ". A new confirmation code has been sent to "
                      ++ email live)%string, "error")]
       else flashes w)%list /\
    logged w' = logged w /\
    current_user w' = current_user w.
Proof.
  intros Hargs Htruthy Hfind Hobj Hnone Hexp Hk Hfresh.
  destruct (expired_frame_rest _ _ _ _ _ Hexp)
    as (Hheap & Hdrawn & Hout & Hsig & Hfl & Hlog & Hses & Hcur).
  rewrite <- Hheap, <- Hdrawn in Hfresh.
  assert (Hobj1 : heap w1 !! user = Some (ModelObj live stored))
    by now rewrite Hheap.
  destruct (reset_confirmation_token_run app request fuel user w1 live stored k
              Hobj1 Hk Hfresh) as (k0 & mail & Hk0 & Hmail & Hreset).
  cbn zeta in Hreset.
  exists (candidate app (drawn w1) k0), (clock app (ticks w1)), mail.
  eexists. split.
  - assert (Hraise : confirm_by_token app (Some t) w =
                       (Exc (TokenExpiredError "Confirmation token is expired"
                               user), w1)).
    { unfold confirm_by_token.
      erewrite bind_Val;
        [|erewrite try_Val; [reflexivity|];
          unfold find_user_by_confirmation_token; rewrite Htruthy;
          exact Hfind].
      erewrite bind_Val;
        [|now apply (getattr_obj confirmed_at user w live stored)].
      rewrite Hnone. cbn [truthy truthy_timestamp].
      erewrite bind_Val; [|exact Hexp]. reflexivity. }
    unfold confirm. rewrite Hargs.
    erewrite bind_Val;
      [|rewrite (try_Exc _ _ w
                   (TokenExpiredError "Confirmation token is expired" user) w1);
          [|now apply bind_Exc];
        cbn beta iota;
        erewrite bind_Val; [|exact Hreset];
        erewrite bind_Val;
          [|apply (getattr_obj email user _
                     (issue (candidate app (drawn w1) k0)
                        (clock app (ticks w1)) live)
                     (Some (issue (candidate app (drawn w1) k0)
                              (clock app (ticks w1)) live)));
            cbn [heap set_heap set_signals set_outbox];
            now apply (lookup_updated _ _ (ModelObj live stored))];
        erewrite bind_Val; [reflexivity|apply do_flash_run]].
    reflexivity.
  - rewrite Hheap in Hk0. split; [exact Hk0|].
    destruct (truthy (config_value app "FLASH_MESSAGES" PNone));
      cbn [heap signals logged flashes outbox current_user session
           set_flashes set_logged set_signals set_heap set_ticks set_outbox
           set_drawn];
      rewrite Hheap, Hout, Hsig, Hfl, Hlog, Hcur; now repeat split.
Qed.

Lemma confirm_view_expired_token_witness :
  exists token now mail w',
    confirm (Sample.sample_app true false true)
        (Sample.confirm_request (Sample.token_of Byte.x00)) 5
        Sample.sample_world = (Val (redirect (PStr "/")), w') /\
    token_unknown token (heap Sample.sample_world) /\
    heap w' =
      <[0%nat := ModelObj (issue token now Sample.alice)
                   (Some (issue token now Sample.alice))]>
        (heap Sample.sample_world) /\
    confirmed_at (issue token now Sample.alice) = None /\
    outbox w' = (outbox Sample.sample_world ++ [mail])%list /\
    recipients mail = [email Sample.alice] /\
    signals w' =
      (signals Sample.sample_world ++ [confirm_instructions_sent 0%nat])%list /\
    flashes w' =
      (flashes Sample.sample_world
         ++ [(("You did not confirm your email within "
                 ++ "100 microseconds"
                 ++ ". A new confirmation code has been sent to "
                 ++ "alice@site")%string, "error")])%list /\
    logged w' = logged Sample.sample_world /\
    current_user w' = current_user Sample.sample_world.
Proof.
  apply (confirm_view_expired_token (Sample.sample_app true false true)
           (Sample.confirm_request (Sample.token_of Byte.x00)) 5
           (Sample.token_of Byte.x00) Sample.sample_world 0%nat Sample.alice
           (Some Sample.alice) (set_ticks 1 Sample.sample_world) 1%nat);
    try reflexivity.
  - lia.
  - unfold token_unknown. simpl.
    repeat constructor; vm_compute; discriminate.
Defined.

(** * The life of a confirmation token *)

(** X14.  A confirmation link works once.  When the token on the user
    is the one the datastore found the user by, a successful
    [confirm_by_token] is followed, on the same token, by the
    [ConfirmationError] of an already confirmed account, which changes
    nothing; and the user no longer requires confirmation. *)
Theorem confirmation_is_single_use app t w user live stored w1 :
  truthy t = true ->
  find_user t w = (Val user, w) ->
  heap w !! user = Some (ModelObj live stored) ->
  confirmation_token live = Some t ->
  confirmed_at live = None ->
  confirmation_token_is_expired app user w = (Val false, w1) ->
  exists w',
    confirm_by_token app (Some t) w = (Val user, w') /\
    confirm_by_token app (Some t) w' =
      (Exc (ConfirmationError "Account has already been confirmed"), w') /\
    requires_confirmation app user w' = (Val false, w').
Proof.
  intros Htruthy Hfind Hobj Htoken Hnone Hexp.
  destruct (confirm_by_token_run app t w user live stored w1)
    as (Hrun & Hheap & _); try assumption.
  cbn zeta in Hrun.
  set (confirmed := with_confirmed_at (Some (clock app (ticks w1))) live) in *.
  eexists. split; [exact Hrun|].
  match goal with |- context [confirm_by_token app (Some t) ?x] =>
    set (w' := x) end.
  assert (Hobj' : heap w' !! user = Some (ModelObj confirmed (Some confirmed))).
  { subst w'. cbn [heap set_heap set_signals]. rewrite Hheap.
    now apply (lookup_updated _ _ (ModelObj live stored)). }
  split.
  - unfold confirm_by_token.
    erewrite bind_Val;
      [|erewrite try_Val; [reflexivity|];
        unfold find_user_by_confirmation_token; rewrite Htruthy;
        apply (find_user_updated t w user (ModelObj confirmed (Some confirmed)));
        [exact Hfind|exact Htoken|];
        subst w'; cbn [heap set_heap set_signals]; now rewrite Hheap].
    erewrite bind_Val; [|exact (getattr_obj confirmed_at user w' _ _ Hobj')].
    reflexivity.
  - unfold requires_confirmation, should_confirm_email.
    destruct (confirm_email (security app)); [|reflexivity].
    erewrite bind_Val; [|exact (getattr_obj confirmed_at user w' _ _ Hobj')].
    reflexivity.
Qed.

Lemma confirmation_is_single_use_witness :
  exists w',
    confirm_by_token (Sample.sample_app true false true)
        (Some (Sample.token_of Byte.x02)) Sample.sample_world
      = (Val 1%nat, w') /\
    confirm_by_token (Sample.sample_app true false true)
        (Some (Sample.token_of Byte.x02)) w' =
      (Exc (ConfirmationError "Account has already been confirmed"), w') /\
    requires_confirmation (Sample.sample_app true false true) 1%nat w'
      = (Val false, w').
Proof.
  apply (confirmation_is_single_use (Sample.sample_app true false true)
           (Sample.token_of Byte.x02) Sample.sample_world 1%nat Sample.bob
           (Some Sample.bob) (set_ticks 1 Sample.sample_world));
    reflexivity.
Defined.

(** The datastore answers from the rows alone: a change to the live
    object of a user changes no lookup. *)
Lemma find_user_live token w user live live' stored w' :
  heap w !! user = Some (ModelObj live stored) ->
  heap w' = <[user := ModelObj live' stored]> (heap w) ->
  (find_user token w').1 = (find_user token w).1.
Proof.
  intros Hobj Hheap. unfold find_user.
  destruct (list_find (row_has_token token) (heap w)) as [[i c]|] eqn:E.
  - apply list_find_Some in E as (Hi & Hc & Hleast).
    destruct (decide (i = user)) as [->|Hne].
    + assert (E' : list_find (row_has_token token) (heap w')
                   = Some (user, ModelObj live' stored)).
      { apply list_find_Some. rewrite Hheap. split; [|split].
        - now apply (lookup_updated _ _ (ModelObj live stored)).
        - rewrite Hobj in Hi. now injection Hi as <-.
        - intros j y Hj Hlt. rewrite list_lookup_insert_ne in Hj by lia.
          now apply (Hleast j). }
      now rewrite E'.
    + assert (E' : list_find (row_has_token token) (heap w') = Some (i, c)).
      { apply list_find_Some. rewrite Hheap. split; [|split].
        - now rewrite list_lookup_insert_ne by congruence.
        - exact Hc.
        - intros j y Hj Hlt.
          destruct (decide (j = user)) as [->|Hne'].
          + rewrite (lookup_updated _ _ (ModelObj live stored)) in Hj
              by exact Hobj.
            injection Hj as <-. now apply (Hleast user (ModelObj live stored)).
          + rewrite list_lookup_insert_ne in Hj by congruence.
            now apply (Hleast j). }
      now rewrite E'.
  - assert (E' : list_find (row_has_token token) (heap w') = None).
    { apply (list_find_None (row_has_token token)). rewrite Hheap.
      apply (list_find_None (row_has_token token)) in E.
      apply Forall_insert; [exact E|].
      rewrite Forall_lookup in E. exact (E _ _ Hobj). }
    now rewrite E'.
Qed.

(** X17.  [generate_confirmation_token] changes the user object, not the
    datastore: until the object is saved every lookup by token answers
    as before, and the token now on the object finds nobody. *)
Theorem generated_token_is_not_persisted app fuel user w live stored k :
  heap w !! user = Some (ModelObj live stored) ->
  (k < fuel)%nat ->
  token_unknown (candidate app (drawn w) k) (heap w) ->
  exists token w',
    generate_confirmation_token app fuel user w = (Val user, w') /\
    getattr user confirmation_token w' = (Val (Some token), w') /\
    find_user token w' = (Exc UserNotFoundError, w') /\
    forall t, (find_user t w').1 = (find_user t w).1.
Proof.
  intros Hobj Hk Hfresh.
  destruct (generate_confirmation_token_run app fuel user w _ k Hobj Hk Hfresh)
    as (k0 & _ & Hk0 & Hgen).
  exists (candidate app (drawn w) k0). eexists. split; [exact Hgen|].
  cbn [cell_map] in *.
  match goal with |- context [getattr user confirmation_token ?x] =>
    set (w' := x) end.
  assert (Hheap : heap w' =
            <[user := ModelObj (issue (candidate app (drawn w) k0)
                                  (clock app (ticks w)) live) stored]> (heap w))
    by reflexivity.
  assert (Hsame : forall t, (find_user t w').1 = (find_user t w).1)
    by (intros t; exact (find_user_live t w user _ _ _ w' Hobj Hheap)).
  split; [|split; [|exact Hsame]].
  - rewrite (getattr_obj _ user w'
               (issue (candidate app (drawn w) k0) (clock app (ticks w)) live)
               stored); [reflexivity|].
    rewrite Hheap. now apply (lookup_updated _ _ (ModelObj live stored)).
  - specialize (Hsame (candidate app (drawn w) k0)).
    rewrite (find_user_unknown _ w Hk0) in Hsame.
    destruct (find_user_cases (candidate app (drawn w) k0) w')
      as [[u Hu] | [Hnone _]]; [|exact Hnone].
    rewrite Hu in Hsame. discriminate.
Qed.

Lemma generated_token_is_not_persisted_witness :
  exists token w',
    generate_confirmation_token (Sample.sample_app true false true) 5 0%nat
        Sample.sample_world = (Val 0%nat, w') /\
    getattr 0%nat confirmation_token w' = (Val (Some token), w') /\
    find_user token w' = (Exc UserNotFoundError, w') /\
    forall t, (find_user t w').1 = (find_user t Sample.sample_world).1.
Proof.
  apply (generated_token_is_not_persisted (Sample.sample_app true false true)
           5 0%nat Sample.sample_world Sample.alice (Some Sample.alice) 1%nat).
  - reflexivity.
  - lia.
  - unfold token_unknown. simpl.
    repeat constructor; vm_compute; discriminate.
Defined.

(** A token no row held, once put on the row of [user], finds that
    user. *)
Lemma find_user_issued token w user c c' w' :
  heap w !! user = Some c ->
  token_unknown token (heap w) ->
  row_has_token token c' ->
  heap w' = <[user := c']> (heap w) ->
  find_user token w' = (Val user, w').
Proof.
  intros Hobj Hunknown Hrow Hheap. unfold find_user.
  assert (E : list_find (row_has_token token) (heap w') = Some (user, c')).
  { apply list_find_Some. rewrite Hheap. split; [|split].
    - now apply (lookup_updated _ _ c).
    - exact Hrow.
    - intros j y Hj Hlt. rewrite list_lookup_insert_ne in Hj by lia.
      unfold token_unknown in Hunknown. rewrite Forall_lookup in Hunknown.
      exact (Hunknown _ _ Hj). }
  now rewrite E.
Qed.

(** What [confirm_by_token] does once the user is found and
    unconfirmed and the expiry predicate raises. *)
Lemma confirm_by_token_raises app t w user live stored e w1 :
  truthy t = true ->
  find_user t w = (Val user, w) ->
  heap w !! user = Some (ModelObj live stored) ->
  confirmed_at live = None ->
  confirmation_token_is_expired app user w = (Exc e, w1) ->
  confirm_by_token app (Some t) w = (Exc e, w1).
Proof.
  intros Htruthy Hfind Hobj Hnone Hexp. unfold confirm_by_token.
  erewrite bind_Val;
    [|erewrite try_Val; [reflexivity|];
      unfold find_user_by_confirmation_token; rewrite Htruthy; exact Hfind].
  erewrite bind_Val;
    [|now apply (getattr_obj confirmed_at user w live stored)].
  rewrite Hnone. cbn [truthy truthy_timestamp].
  now apply bind_Exc.
Qed.

(** X15.  Round trip of a reissued token.  After
    [reset_confirmation_token] on an unconfirmed user, the token it
    issued, presented before the clock has moved past the confirmation
    window, confirms the user; the one exception is a window so wide
    that the deadline of the expiry check is not a [datetime], in which
    case the confirmation ends in that check's [OverflowError]. *)
Theorem reissued_token_confirms app request fuel w user live stored k :
  heap w !! user = Some (ModelObj live stored) ->
  confirmed_at live = None ->
  (k < fuel)%nat ->
  token_unknown (candidate app (drawn w) k) (heap w) ->
  clock app (S (ticks w)) - clock app (ticks w)
    <= confirm_email_within (security app) ->
  exists token w1,
    reset_confirmation_token app request fuel user w = (Val tt, w1) /\
    if negb (confirm_email (security app))
       || is_datetime (clock app (S (ticks w))
                       - confirm_email_within (security app))
    then
      exists confirmed w2,
        confirm_by_token app (Some token) w1 = (Val user, w2) /\
        heap w2 !! user = Some (ModelObj confirmed (Some confirmed)) /\
        confirmed_at confirmed <> None /\
        confirmation_token confirmed = Some token
    else
      confirm_by_token app (Some token) w1
        = (Exc OverflowError, set_ticks (S (ticks w1)) w1).
Proof.
  intros Hobj Hnone Hk Hfresh Hwindow.
  destruct (reset_confirmation_token_run app request fuel user w live stored k
              Hobj Hk Hfresh) as (k0 & mail & Hk0 & _ & Hreset).
  cbn zeta in Hreset.
  set (token := candidate app (drawn w) k0) in *.
  set (reissued := issue token (clock app (ticks w)) live) in *.
  match type of Hreset with _ = (_, ?x) => set (w1 := x) in * end.
  assert (Hheap : heap w1 = <[user := ModelObj reissued (Some reissued)]> (heap w))
    by reflexivity.
  assert (Hobj1 : heap w1 !! user = Some (ModelObj reissued (Some reissued))).
  { rewrite Hheap. now apply (lookup_updated _ _ (ModelObj live stored)). }
  assert (Hfind : find_user token w1 = (Val user, w1)).
  { apply (find_user_issued token w user (ModelObj live stored)
             (ModelObj reissued (Some reissued)) w1);
      [exact Hobj|exact Hk0|reflexivity|exact Hheap]. }
  assert (Hconfirms : forall w1',
            confirmation_token_is_expired app user w1 = (Val false, w1') ->
            exists confirmed w2,
              confirm_by_token app (Some token) w1 = (Val user, w2) /\
              heap w2 !! user = Some (ModelObj confirmed (Some confirmed)) /\
              confirmed_at confirmed <> None /\
              confirmation_token confirmed = Some token).
  { intros w1' Hexp.
    destruct (confirm_by_token_run app token w1 user reissued (Some reissued)
                w1') as (Hrun & Hheap1 & _);
      [apply candidate_truthy|exact Hfind|exact Hobj1|exact Hnone|exact Hexp|].
    eexists _, _. split; [exact Hrun|].
    cbn [heap set_heap set_signals]. rewrite Hheap1.
    split; [now apply (lookup_updated _ _ (ModelObj reissued (Some reissued)))|].
    split; [discriminate|reflexivity]. }
  exists token, w1. split; [exact Hreset|].
  destruct (confirm_email (security app)) eqn:Hon; cbn [negb orb].
  - pose proof (expired_run app user w1 reissued (Some reissued) Hon Hobj1)
      as Hexp.
    change (ticks w1) with (S (ticks w)) in Hexp.
    destruct (is_datetime (clock app (S (ticks w))
                           - confirm_email_within (security app))).
    + apply (Hconfirms (set_ticks (S (S (ticks w))) w1)). rewrite Hexp.
      cbn [confirmation_sent_at reissued issue with_confirmation_sent_at].
      do 2 f_equal. apply Z.ltb_ge. lia.
    + apply (confirm_by_token_raises app token w1 user reissued (Some reissued));
        [apply candidate_truthy|exact Hfind|exact Hobj1|exact Hnone|exact Hexp].
  - apply (Hconfirms w1).
    unfold confirmation_token_is_expired, should_confirm_email.
    now rewrite Hon.
Qed.

Lemma reissued_token_confirms_witness :
  exists token w1,
    reset_confirmation_token (Sample.sample_app true false true)
        (Sample.sample_request true) 5 0%nat Sample.sample_world
      = (Val tt, w1) /\
    exists confirmed w2,
      confirm_by_token (Sample.sample_app true false true) (Some token) w1
        = (Val 0%nat, w2) /\
      heap w2 !! 0%nat = Some (ModelObj confirmed (Some confirmed)) /\
      confirmed_at confirmed <> None /\
      confirmation_token confirmed = Some token.
Proof.
  apply (reissued_token_confirms (Sample.sample_app true false true)
           (Sample.sample_request true) 5 Sample.sample_world 0%nat
           Sample.alice (Some Sample.alice) 1%nat).
  - reflexivity.
  - reflexivity.
  - lia.
  - unfold token_unknown. simpl.
    repeat constructor; vm_compute; discriminate.
  - vm_compute. discriminate.
Defined.

(** X16.  Reissuing revokes.  After [reset_confirmation_token] on a
    user whose row held the token [t], and when no other row holds [t],
    the new token finds the user and [confirm_by_token] refuses [t] as
    an invalid token, changing nothing. *)
Theorem reissue_revokes_old_token app request fuel t w user live row k :
  truthy t = true ->
  heap w !! user = Some (ModelObj live (Some row)) ->
  confirmation_token row = Some t ->
  (forall other c, other <> user -> heap w !! other = Some c ->
     ~ row_has_token t c) ->
  (k < fuel)%nat ->
  token_unknown (candidate app (drawn w) k) (heap w) ->
  exists token w',
    reset_confirmation_token app request fuel user w = (Val tt, w') /\
    token <> t /\
    find_user token w' = (Val user, w') /\
    confirm_by_token app (Some t) w' =
      (Exc (ConfirmationError "Invalid confirmation token"), w').
Proof.
  intros Htruthy Hobj Hrow Hothers Hk Hfresh.
  destruct (reset_confirmation_token_run app request fuel user w live (Some row)
              k Hobj Hk Hfresh) as (k0 & mail & Hk0 & _ & Hreset).
  cbn zeta in Hreset.
  set (token := candidate app (drawn w) k0) in *.
  set (reissued := issue token (clock app (ticks w)) live) in *.
  exists token. eexists. split; [exact Hreset|].
  match goal with |- context [confirm_by_token app (Some t) ?x] =>
    set (w' := x) end.
  assert (Hheap : heap w' = <[user := ModelObj reissued (Some reissued)]> (heap w))
    by reflexivity.
  assert (Hne : token <> t).
  { intros E. unfold token_unknown in Hk0. rewrite Forall_lookup in Hk0.
    apply (Hk0 _ _ Hobj). cbn [row_has_token]. congruence. }
  split; [exact Hne|]. split.
  - apply (find_user_issued token w user (ModelObj live (Some row))
             (ModelObj reissued (Some reissued)) w');
      [exact Hobj|exact Hk0|reflexivity|exact Hheap].
  - assert (Hunknown : token_unknown t (heap w')).
    { unfold token_unknown. rewrite Forall_lookup. intros i c Hi.
      rewrite Hheap in Hi. destruct (decide (i = user)) as [->|Hi'].
      - rewrite (lookup_updated _ _ _ _ Hobj) in Hi. injection Hi as <-.
        cbn [row_has_token]. intros [= E]. now apply Hne.
      - rewrite list_lookup_insert_ne in Hi by congruence.
        now apply (Hothers i). }
    unfold confirm_by_token. apply bind_Exc.
    rewrite (try_Exc _ _ w' UserNotFoundError w'); [reflexivity|].
    unfold find_user_by_confirmation_token. rewrite Htruthy.
    now apply find_user_unknown.
Qed.

Lemma reissue_revokes_old_token_witness :
  exists token w',
    reset_confirmation_token (Sample.sample_app true false true)
        (Sample.sample_request true) 5 0%nat Sample.sample_world
      = (Val tt, w') /\
    token <> Sample.token_of Byte.x00 /\
    find_user token w' = (Val 0%nat, w') /\
    confirm_by_token (Sample.sample_app true false true)
        (Some (Sample.token_of Byte.x00)) w' =
      (Exc (ConfirmationError "Invalid confirmation token"), w').
Proof.
  apply (reissue_revokes_old_token (Sample.sample_app true false true)
           (Sample.sample_request true) 5 (Sample.token_of Byte.x00)
           Sample.sample_world 0%nat Sample.alice Sample.alice 1%nat).
  - reflexivity.
  - reflexivity.
  - reflexivity.
  - intros [|[|[|other]]] c Hne; [lia| | |discriminate];
      intros [= <-]; vm_compute; discriminate.
  - lia.
  - unfold token_unknown. simpl.
    repeat constructor; vm_compute; discriminate.
Defined.

(** X18.  A user holding a token that was never stamped with its issue
    time cannot be confirmed while confirmation is enabled: comparing
    the missing time to the deadline is a [TypeError] (and a deadline
    outside the [datetime] range is, before that, an [OverflowError]),
    which [confirm_by_token] lets through after one reading of the
    clock, and which the [confirm] view, catching only the two
    confirmation errors, lets through as well. *)
Theorem unstamped_token_is_a_type_error app request fuel t w user live stored :
  args request !! "confirmation_token" = Some t ->
  truthy t = true ->
  find_user t w = (Val user, w) ->
  heap w !! user = Some (ModelObj live stored) ->
  confirmed_at live = None ->
  confirmation_sent_at live = None ->
  confirm_email (security app) = true ->
  let e := if is_datetime (clock app (ticks w)
                            - confirm_email_within (security app))
           then TypeError else OverflowError in
  confirm_by_token app (Some t) w = (Exc e, set_ticks (S (ticks w)) w) /\
  confirm app request fuel w = (Exc e, set_ticks (S (ticks w)) w).
Proof.
  intros Hargs Htruthy Hfind Hobj Hnone Hsent Hon e. subst e.
  assert (Hexp : confirmation_token_is_expired app user w
                 = (Exc (if is_datetime (clock app (ticks w)
                                         - confirm_email_within (security app))
                         then TypeError else OverflowError),
                    set_ticks (S (ticks w)) w)).
  { rewrite (expired_run app user w live stored Hon Hobj), Hsent.
    now destruct (is_datetime _). }
  assert (Hraise := confirm_by_token_raises app t w user live stored _ _
                      Htruthy Hfind Hobj Hnone Hexp).
  split; [exact Hraise|].
  unfold confirm. rewrite Hargs. apply bind_Exc.
  erewrite try_Exc; [|apply bind_Exc; exact Hraise].
  now destruct (is_datetime _).
Qed.

Lemma unstamped_token_is_a_type_error_witness :
  confirm_by_token (Sample.sample_app true false true)
      (Some (Sample.token_of Byte.x05)) Sample.crowded_world
    = (Exc TypeError, set_ticks 1 Sample.crowded_world) /\
  confirm (Sample.sample_app true false true)
      (Sample.confirm_request (Sample.token_of Byte.x05)) 5
      Sample.crowded_world
    = (Exc TypeError, set_ticks 1 Sample.crowded_world).
Proof.
  apply (unstamped_token_is_a_type_error (Sample.sample_app true false true)
           (Sample.confirm_request (Sample.token_of Byte.x05)) 5
           (Sample.token_of Byte.x05) Sample.crowded_world 4%nat Sample.frank
           (Some Sample.frank));
    reflexivity.
Defined.

(** X20.  With confirmation disabled no token expires: a token that
    finds an unconfirmed user confirms that user whenever the token was
    issued, stamped or not, and the only reading of the clock is the one
    that dates the confirmation. *)
Theorem confirmation_disabled_never_expires app t w user live stored :
  confirm_email (security app) = false ->
  truthy t = true ->
  find_user t w = (Val user, w) ->
  heap w !! user = Some (ModelObj live stored) ->
  confirmed_at live = None ->
  confirm_by_token app (Some t) w =
    (Val user,
     set_signals (signals w ++ [user_confirmed user])
       (set_heap
          (<[user := ModelObj
                       (with_confirmed_at (Some (clock app (ticks w))) live)
                       (Some (with_confirmed_at
                                (Some (clock app (ticks w))) live))]> (heap w))
          (set_ticks (S (ticks w)) w))).
Proof.
  intros Hoff Htruthy Hfind Hobj Hnone.
  apply (confirm_by_token_run app t w user live stored w);
    try assumption.
  unfold confirmation_token_is_expired, should_confirm_email.
  now rewrite Hoff.
Qed.

Lemma confirmation_disabled_never_expires_witness :
  confirm_by_token (Sample.sample_app false false true)
      (Some (Sample.token_of Byte.x05)) Sample.crowded_world =
    (Val 4%nat,
     set_signals [user_confirmed 4%nat]
       (set_heap
          (<[4%nat := ModelObj (with_confirmed_at (Some 1000) Sample.frank)
                        (Some (with_confirmed_at (Some 1000) Sample.frank))]>
             (heap Sample.crowded_world))
          (set_ticks 1 Sample.crowded_world))).
Proof.
  apply (confirmation_disabled_never_expires
           (Sample.sample_app false false true) (Sample.token_of Byte.x05)
           Sample.crowded_world 4%nat Sample.frank (Some Sample.frank));
    reflexivity.
Defined.

(** X21.  The token [generate_confirmation_token] puts on the user is
    the first one of the drawn sequence that the datastore does not
    know; each attempt costs thirty bytes of entropy, and the clock is
    read once, for the issue time. *)
Theorem generated_token_is_first_unknown app fuel user w c k :
  heap w !! user = Some c ->
  (k < fuel)%nat ->
  token_unknown (candidate app (drawn w) k) (heap w) ->
  (forall j, (j < k)%nat ->
     ~ token_unknown (candidate app (drawn w) j) (heap w)) ->
  generate_confirmation_token app fuel user w =
    (Val user,
     set_heap
       (<[user := cell_map (issue (candidate app (drawn w) k)
                              (clock app (ticks w))) c]> (heap w))
       (set_ticks (S (ticks w)) (set_drawn (drawn w + 30 * S k) w))).
Proof.
  intros Hc Hk Hfresh Hfirst.
  destruct (generate_confirmation_token_run app fuel user w c k Hc Hk Hfresh)
    as (k0 & Hle & Hk0 & Hrun).
  assert (k0 = k) as ->.
  { destruct (decide (k0 = k)) as [E|Hne]; [exact E|].
    exfalso. apply (Hfirst k0); [lia|exact Hk0]. }
  exact Hrun.
Qed.

Lemma generated_token_is_first_unknown_witness :
  generate_confirmation_token (Sample.sample_app true false true) 5 0%nat
      Sample.sample_world =
    (Val 0%nat,
     set_heap
       (<[0%nat := ModelObj (issue (Sample.token_of Byte.x01) 1000 Sample.alice)
                     (Some Sample.alice)]> (heap Sample.sample_world))
       (set_ticks 1 (set_drawn 60 Sample.sample_world))).
Proof.
  apply (generated_token_is_first_unknown (Sample.sample_app true false true)
           5 0%nat Sample.sample_world
           (ModelObj Sample.alice (Some Sample.alice)) 1%nat).
  - reflexivity.
  - lia.
  - unfold token_unknown. simpl.
    repeat constructor; vm_compute; discriminate.
  - intros j Hj H. assert (j = 0%nat) as -> by lia.
    apply Forall_inv in H. apply H. vm_compute. reflexivity.
Defined.

(** * The confirmation mail *)

Lemma substring_prefix (s r : string) :
  substring 0 (String.length s) (s ++ r) = s.
Proof.
  induction s as [|c s IH]; [now destruct r|].
  simpl. f_equal. exact IH.
Qed.

Lemma length_snoc (s : string) (c : ascii) :
  String.length (s ++ String c EmptyString) = S (String.length s).
Proof.
  induction s as [|d s IH]; [reflexivity|].
  simpl. f_equal. exact IH.
Qed.

Lemma drop_last_snoc (s : string) (c : ascii) :
  drop_last (s ++ String c EmptyString) = s.
Proof.
  unfold drop_last. rewrite length_snoc.
  replace (S (String.length s) - 1)%nat with (String.length s) by lia.
  apply substring_prefix.
Qed.

(** X19.  The confirmation mail.  For a site whose root URL ends in a
    slash, [send_confirmation_instructions] sends exactly one message,
    from the configured sender to the address of the user, whose two
    bodies are the confirmation templates rendered with the user and
    with a link made of the root URL without that slash followed by the
    confirm URL for the token on the user object; it then notifies
    [confirm_instructions_sent] and touches nothing else. *)
Theorem confirmation_mail app request user w live stored base :
  heap w !! user = Some (ModelObj live stored) ->
  url_root request = base ++ "/" ->
  let link := base ++ url_for_confirm app (confirmation_token live) in
  let context := [("user", CUser user); ("confirmation_link", CStr link)] in
  send_confirmation_instructions app request user w =
    (Val true,
     set_signals (signals w ++ [confirm_instructions_sent user])
       (set_outbox
          (outbox w
             ++ [mkMessage "Please confirm your email"
                   (email_sender (security app)) [email live]
                   (render_template app
                      "security/email/confirmation_instructions.txt" context)
                   (render_template app
                      "security/email/confirmation_instructions.html" context)])
          w)).
Proof.
  intros Hobj Hroot link context.
  unfold send_confirmation_instructions.
  erewrite bind_Val; [|now apply (getattr_obj _ user w live stored)].
  erewrite bind_Val; [|now apply (getattr_obj _ user w live stored)].
  rewrite Hroot, drop_last_snoc. reflexivity.
Qed.

Lemma confirmation_mail_witness :
  send_confirmation_instructions (Sample.sample_app true false true)
      (Sample.sample_request true) 1%nat Sample.sample_world =
    (Val true,
     set_signals [confirm_instructions_sent 1%nat]
       (set_outbox
          [mkMessage "Please confirm your email" "noreply@site" ["bob@site"]
             "security/email/confirmation_instructions.txt"
             "security/email/confirmation_instructions.html"]
          Sample.sample_world)).
Proof.
  apply (confirmation_mail (Sample.sample_app true false true)
           (Sample.sample_request true) 1%nat Sample.sample_world Sample.bob
           (Some Sample.bob) "http://site");
    reflexivity.
Defined.
